(** * weight_tracker: the measurement store, the range resolver and the
      trend computation of [weight_tracker.py], embedded in Rocq.

    Conventions of the embedding.
    - Python [str] values are byte strings ([string]); SQLite compares TEXT
      with the BINARY collation, i.e. bytewise, which is [String.compare].
      The digits [\d] of [strptime] are the ASCII digits: the parser of the
      model is the parser of the code on texts of ASCII characters, and
      rejects the other Unicode decimal digits, which the code accepts.
      A statement that a text is rejected is therefore made for ASCII texts.
    - Python [float] values are modelled by exact rationals ([Q]); the store
      only copies them, the trend computation does arithmetic on them.  The
      arithmetic is exact: rounding, and the overflow to [inf] on which the
      fit raises [ValueError], are outside the model, so that a statement
      that the fit returns is a statement in exact arithmetic.
    - A raised exception is the [Raise] constructor of [result].
    - The SQLite file is a record of its two tables, each a list of rows. *)

From Stdlib Require Import ZArith List Bool Ascii String QArith Qabs Lia.
From Stdlib Require Import Sorting.Sorted Sorting.Permutation.
From Stdlib Require Import Lqa.
Import ListNotations.

Open Scope Z_scope.

(** ** Exceptions *)

Inductive exn : Type :=
| ValueError
| OverflowError
| IndexError.

Inductive result (A : Type) : Type :=
| Ok (a : A)
| Raise (e : exn).

Arguments Ok {A} a.
Arguments Raise {A} e.

Definition bind {A B : Type} (r : result A) (k : A -> result B) : result B :=
  match r with
  | Ok a => k a
  | Raise e => Raise e
  end.

Notation "x <- r ;; k" := (bind r (fun x => k))
  (at level 61, r at next level, right associativity).

(** A list comprehension whose body may raise: elements are evaluated from
    left to right and the first exception aborts the comprehension. *)
Fixpoint comprehension {A B : Type} (f : A -> result B) (l : list A)
  : result (list B) :=
  match l with
  | [] => Ok []
  | a :: l' => b <- f a ;; bs <- comprehension f l' ;; Ok (b :: bs)
  end.

(** ** The [datetime] module, as far as the program uses it *)

Module PyDatetime.

Definition MINYEAR : Z := 1.
Definition MAXYEAR : Z := 9999.
Definition MAXORDINAL : Z := 3652059.

Definition DAYS_IN_MONTH : list Z :=
  [-1; 31; 28; 31; 30; 31; 30; 31; 31; 30; 31; 30; 31].

(** The loop that fills [_DAYS_BEFORE_MONTH] from [_DAYS_IN_MONTH[1:]]. *)
Fixpoint running_sums (dbm : Z) (dims : list Z) : list Z :=
  match dims with
  | [] => []
  | dim :: rest => dbm :: running_sums (dbm + dim) rest
  end.

Definition DAYS_BEFORE_MONTH : list Z :=
  -1 :: running_sums 0 (tl DAYS_IN_MONTH).

Definition table_get (t : list Z) (i : Z) : Z := nth (Z.to_nat i) t 0.

Definition is_leap (year : Z) : bool :=
  (year mod 4 =? 0) && (negb (year mod 100 =? 0) || (year mod 400 =? 0)).

Definition days_before_year (year : Z) : Z :=
  let y := year - 1 in
  y * 365 + y / 4 - y / 100 + y / 400.

Definition days_in_month (year month : Z) : Z :=
  if (month =? 2) && is_leap year then 29 else table_get DAYS_IN_MONTH month.

Definition days_before_month (year month : Z) : Z :=
  table_get DAYS_BEFORE_MONTH month
  + (if (2 <? month) && is_leap year then 1 else 0).

Definition ymd2ord (year month day : Z) : Z :=
  days_before_year year + days_before_month year month + day.

Definition DI400Y : Z := Eval cbv in days_before_year 401.
Definition DI100Y : Z := Eval cbv in days_before_year 101.
Definition DI4Y : Z := Eval cbv in days_before_year 5.

Definition ord2ymd (n : Z) : Z * Z * Z :=
  let n := n - 1 in
  let n400 := n / DI400Y in
  let n := n mod DI400Y in
  let year := n400 * 400 + 1 in
  let n100 := n / DI100Y in
  let n := n mod DI100Y in
  let n4 := n / DI4Y in
  let n := n mod DI4Y in
  let n1 := n / 365 in
  let n := n mod 365 in
  let year := year + (n100 * 100 + n4 * 4 + n1) in
  if (n1 =? 4) || (n100 =? 4) then (year - 1, 12, 31)
  else
    let leapyear := (n1 =? 3) && (negb (n4 =? 24) || (n100 =? 3)) in
    let month := Z.shiftr (n + 50) 5 in
    let preceding :=
      table_get DAYS_BEFORE_MONTH month
      + (if (2 <? month) && leapyear then 1 else 0) in
    if n <? preceding then
      let month := month - 1 in
      let preceding :=
        preceding
        - (table_get DAYS_IN_MONTH month
           + (if (month =? 2) && leapyear then 1 else 0)) in
      (year, month, n - preceding + 1)
    else (year, month, n - preceding + 1).

(** A [datetime.date] object. *)
Record date : Type := mkdate { year : Z; month : Z; day : Z }.

(** [_check_date_fields]: the test the constructor runs. *)
Definition check_date_fields (y m d : Z) : bool :=
  (MINYEAR <=? y) && (y <=? MAXYEAR)
  && (1 <=? m) && (m <=? 12)
  && (1 <=? d) && (d <=? days_in_month y m).

Definition valid_date (d : date) : bool :=
  check_date_fields (year d) (month d) (day d).

(** [date(y, m, d)]. *)
Definition date_new (y m d : Z) : result date :=
  if check_date_fields y m d then Ok (mkdate y m d) else Raise ValueError.

Definition toordinal (d : date) : Z := ymd2ord (year d) (month d) (day d).

Definition fromordinal (n : Z) : result date :=
  let '(y, m, d) := ord2ymd n in date_new y m d.

(** [date.__add__] with a [timedelta] of [days] days. *)
Definition date_add_days (d : date) (days : Z) : result date :=
  let o := toordinal d + days in
  if (0 <? o) && (o <=? MAXORDINAL) then fromordinal o
  else Raise OverflowError.

(** [date.__sub__] with a [timedelta]: [self + timedelta(-other.days)]. *)
Definition date_sub_days (d : date) (days : Z) : result date :=
  date_add_days d (- days).

(** [_cmp] on the [(year, month, day)] triples: how dates are compared. *)
Definition date_compare (a b : date) : comparison :=
  match year a ?= year b with
  | Eq =>
      match month a ?= month b with
      | Eq => day a ?= day b
      | c => c
      end
  | c => c
  end.

Definition date_leb (a b : date) : bool :=
  match date_compare a b with Gt => false | _ => true end.

Definition date_ltb (a b : date) : bool :=
  match date_compare a b with Lt => true | _ => false end.

(** *** Text: [isoformat] and [strptime] with the format [%Y-%m-%d] *)

Definition code (c : ascii) : Z := Z.of_N (N_of_ascii c).

Definition is_digit (c : ascii) : bool := (48 <=? code c) && (code c <=? 57).

Definition in_range (lo hi c : ascii) : bool :=
  (code lo <=? code c) && (code c <=? code hi).

Definition digit_val (c : ascii) : Z := code c - 48.

Definition digit_char (n : Z) : ascii := ascii_of_N (Z.to_N (48 + n)).

(** ["%0wd" % n] for [0 <= n < 10 ^ w], which the fields of a [date] are
    for [w = 4] (year) and [w = 2] (month and day). *)
Fixpoint zero_padded (w : nat) (n : Z) : list ascii :=
  match w with
  | O => []
  | S w' => zero_padded w' (n / 10) ++ [digit_char (n mod 10)]
  end.

Definition isoformat (d : date) : string :=
  string_of_list_ascii
    (zero_padded 4 (year d) ++ ["-"%char] ++ zero_padded 2 (month d)
     ++ ["-"%char] ++ zero_padded 2 (day d)).

(** The regular expression [_strptime] builds for [%Y-%m-%d] is
    [(\d\d\d\d)-(1[0-2]|0[1-9]|[1-9])-(3[0-1]|[1-2]\d|0[1-9]|[1-9]| [1-9])].
    A matcher returns the ways it can match a prefix of the input, in the
    order in which a backtracking engine tries them: the value matched and
    the rest of the input. *)
Definition matcher : Type := list ascii -> list (Z * list ascii).

Definition re_Y : matcher := fun s =>
  match s with
  | a :: b :: c :: d :: rest =>
      if is_digit a && is_digit b && is_digit c && is_digit d
      then [(digit_val a * 1000 + digit_val b * 100 + digit_val c * 10
             + digit_val d, rest)]
      else []
  | _ => []
  end.

(** Two characters, the first in [[lo1-hi1]], the second in [[lo2-hi2]]. *)
Definition two_chars (lo1 hi1 lo2 hi2 : ascii) : matcher := fun s =>
  match s with
  | a :: b :: rest =>
      if in_range lo1 hi1 a && in_range lo2 hi2 b
      then [(digit_val a * 10 + digit_val b, rest)]
      else []
  | _ => []
  end.

Definition one_char (lo hi : ascii) : matcher := fun s =>
  match s with
  | a :: rest => if in_range lo hi a then [(digit_val a, rest)] else []
  | _ => []
  end.

Definition space_char : matcher := fun s =>
  match s with
  | a :: b :: rest =>
      if (code a =? 32) && in_range "1" "9" b then [(digit_val b, rest)]
      else []
  | _ => []
  end.

Definition alt (ms : list matcher) : matcher := fun s =>
  flat_map (fun m => m s) ms.

Definition re_m : matcher :=
  alt [two_chars "1" "1" "0" "2"; two_chars "0" "0" "1" "9";
       one_char "1" "9"].

Definition re_d : matcher :=
  alt [two_chars "3" "3" "0" "1"; two_chars "1" "2" "0" "9";
       two_chars "0" "0" "1" "9"; one_char "1" "9"; space_char].

Definition lit (c : ascii) (s : list ascii) : list (list ascii) :=
  match s with
  | a :: rest => if (code a =? code c) then [rest] else []
  | [] => []
  end.

(** The matches of the part after the year and its dash, then of the whole
    expression, in backtracking order. *)
Definition re_md (s : list ascii) : list (Z * Z * list ascii) :=
  flat_map (fun '(m, s3) =>
    flat_map (fun s4 => map (fun '(d, s5) => (m, d, s5)) (re_d s4))
      (lit "-" s3))
    (re_m s).

Definition re_match (s : list ascii) : list (Z * Z * Z * list ascii) :=
  flat_map (fun '(y, s1) =>
    flat_map (fun s2 => map (fun '(m, d, s5) => (y, m, d, s5)) (re_md s2))
      (lit "-" s1))
    (re_Y s).

(** [datetime.strptime(s, '%Y-%m-%d').date()]: the first match is taken; no
    match, unconverted data after it, or fields that are no calendar day
    raise [ValueError]. *)
Definition strptime (s : string) : result date :=
  match re_match (list_ascii_of_string s) with
  | (y, m, d, rest) :: _ =>
      match rest with
      | [] => date_new y m d
      | _ :: _ => Raise ValueError
      end
  | [] => Raise ValueError
  end.

End PyDatetime.

Import PyDatetime.

(** ** The SQLite database *)

(** A table with a TEXT PRIMARY KEY column and one value column is the list
    of its rows, oldest first. *)
Definition table (V : Type) : Type := list (string * V).

Record database : Type := mkdb {
  weights : table Q;            (* weights(date TEXT PRIMARY KEY, weight REAL) *)
  preferences : table string    (* preferences(key TEXT PRIMARY KEY, value TEXT) *)
}.

(** The PRIMARY KEY constraint. *)
Definition primary_key {V : Type} (t : table V) : Prop := NoDup (map fst t).

(** [INSERT OR REPLACE INTO t VALUES (k, v)]: the rows that conflict on the
    key are deleted, then the new row is inserted. *)
Definition insert_or_replace {V : Type} (k : string) (v : V) (t : table V)
  : table V :=
  filter (fun r => negb (fst r =? k)%string) t ++ [(k, v)].

(** [ORDER BY date]: ascending in the BINARY collation. *)
Fixpoint insert_row {V : Type} (r : string * V) (l : list (string * V))
  : list (string * V) :=
  match l with
  | [] => [r]
  | r' :: l' =>
      if String.leb (fst r) (fst r') then r :: r' :: l'
      else r' :: insert_row r l'
  end.

Definition order_by_key {V : Type} (l : list (string * V))
  : list (string * V) :=
  fold_right insert_row [] l.

(** [WHERE date >= ?]. *)
Definition where_key_ge {V : Type} (p : string) (t : table V) : table V :=
  filter (fun r => String.leb p (fst r)) t.

(** [SELECT value FROM t WHERE key = ?] followed by [fetchone()]. *)
Definition select_one {V : Type} (k : string) (t : table V) : option V :=
  match filter (fun r => (fst r =? k)%string) t with
  | r :: _ => Some (snd r)
  | [] => None
  end.

(** ** The program *)

(** The state [init_db] leaves on a fresh file: both tables exist, empty. *)
Definition empty_db : database := mkdb [] [].

(** [CREATE TABLE IF NOT EXISTS] on both tables keeps what is there. *)
Definition init_db (db : database) : database := db.

Definition log_weight (date : string) (weight : Q) (db : database)
  : database :=
  mkdb (insert_or_replace date weight (weights db)) (preferences db).

(** The rows the cursor returns, the parameter already adapted to text. *)
Definition fetchall (start : option string) (db : database)
  : list (string * Q) :=
  match start with
  | Some p => order_by_key (where_key_ge p (weights db))
  | None => order_by_key (weights db)
  end.

(** [start_date] is a [date] object (always truthy) or [None]; the [sqlite3]
    adapter hands a [date] to SQLite as its [isoformat()]. *)
Definition get_weights (start_date : option date) (db : database)
  : result (list date * list Q) :=
  let results := fetchall (option_map isoformat start_date) db in
  dates <- comprehension (fun r => strptime (fst r)) results ;;
  Ok (dates, map snd results).

Definition set_preference (key value : string) (db : database) : database :=
  mkdb (weights db) (insert_or_replace key value (preferences db)).

Definition get_preference (key : string) (default : string) (db : database)
  : string :=
  match select_one key (preferences db) with
  | Some v => v
  | None => default
  end.

(** [import_historical_data]; [prev_weights] is the dictionary of the module
    [weights], given as its items in iteration order. *)
Definition import_historical_data (prev_weights : list (string * Q))
  (db : database) : database :=
  fold_left (fun db' item => log_weight (fst item) (snd item) db')
    prev_weights db.

(** *** The trend line: [sklearn.linear_model.LinearRegression] on one
    feature, in exact arithmetic *)

Open Scope Q_scope.

Definition sumQ (l : list Q) : Q := fold_right Qplus 0 l.

Definition mean (l : list Q) : Q := sumQ l / inject_Z (Z.of_nat (List.length l)).

Definition dot (a b : list Q) : Q :=
  sumQ (map (fun p => fst p * snd p) (combine a b)).

(** [scipy.linalg.lstsq] for a single column: the least-squares solution of
    minimal norm, which is [0] when the column is zero. *)
Definition lstsq (x y : list Q) : Q :=
  if Qeq_bool (dot x x) 0 then 0 else dot x y / dot x x.

Record LinearRegression : Type := mkmodel { coef_ : Q; intercept_ : Q }.

(** [fit]: the input check refuses zero samples and inputs of different
    lengths with [ValueError]; then the data are centred, the centred system
    is solved and the intercept recovered. *)
Definition fit (X y : list Q) : result LinearRegression :=
  if (List.length X =? 0)%nat then Raise ValueError
  else if negb (List.length X =? List.length y)%nat then Raise ValueError
  else
    let X_offset := mean X in
    let y_offset := mean y in
    let coef := lstsq (map (fun x => x - X_offset) X)
                      (map (fun v => v - y_offset) y) in
    Ok (mkmodel coef (y_offset - X_offset * coef)).

Definition predict (model : LinearRegression) (X : list Q) : list Q :=
  map (fun x => x * coef_ model + intercept_ model) X.

(** [l[0]] and [l[-1]]. *)
Definition first_item (l : list Q) : result Q :=
  match l with
  | [] => Raise IndexError
  | v :: _ => Ok v
  end.

Definition last_item (l : list Q) : result Q :=
  match l with
  | [] => Raise IndexError
  | v :: l' => Ok (last l' v)
  end.

(** What [generate_graph] computes before it draws. *)
Record trend : Type := mktrend {
  trend_line : list Q;
  slope : Q;
  total_change : Q
}.

Definition generate_graph (dates : list date) (weights : list Q)
  : result trend :=
  let date_ordinals := map (fun d => inject_Z (toordinal d)) dates in
  model <- fit date_ordinals weights ;;
  let trend_line := predict model date_ordinals in
  let slope := coef_ model in
  w_last <- last_item weights ;;
  w_first <- first_item weights ;;
  Ok (mktrend trend_line slope (w_last - w_first)).

Close Scope Q_scope.

(** *** The range selection of [main] *)

Open Scope string_scope.

(** [s.split(':')]. *)
Fixpoint split_colon_aux (cur : string) (s : string) : list string :=
  match s with
  | EmptyString => [cur]
  | String c s' =>
      if (c =? ":")%char then cur :: split_colon_aux "" s'
      else split_colon_aux (cur ++ String c "") s'
  end.

Definition split_colon (s : string) : list string := split_colon_aux "" s.

Definition list_item (l : list string) (i : nat) : result string :=
  match nth_error l i with
  | Some x => Ok x
  | None => Raise IndexError
  end.

(** The [elif] chain of lines 146-155 on the tag in force. *)
Definition start_of_range (graph_range : string) (today : date)
  : result (option date) :=
  if prefix "from:" graph_range then
    part <- list_item (split_colon graph_range) 1 ;;
    d <- strptime part ;; Ok (Some d)
  else if graph_range =? "1m" then
    d <- date_sub_days today 30 ;; Ok (Some d)
  else if graph_range =? "6m" then
    d <- date_sub_days today 180 ;; Ok (Some d)
  else if graph_range =? "1y" then
    d <- date_sub_days today 365 ;; Ok (Some d)
  else Ok None.

(** Lines 141-155: [from_date] is [args.from_date], [graph_range] the tag in
    force, [today] the value of [datetime.date.today()]. *)
Definition resolve_start_date (from_date : option string)
  (graph_range : string) (today : date) : result (option date) :=
  match from_date with
  | Some fd =>
      if negb (fd =? "") then d <- strptime fd ;; Ok (Some d)
      else start_of_range graph_range today
  | None => start_of_range graph_range today
  end.

(** Line 139: the tag in force is [args.range] when it is given, else the
    stored preference, else ["all"]. *)
Definition graph_range_of (range : option string) (db : database) : string :=
  match range with
  | Some r => if negb (r =? "") then r
              else get_preference "default_range" "all" db
  | None => get_preference "default_range" "all" db
  end.

(** Lines 139-159 of [main]: the start date and the database after the
    preference writes. *)
Definition main_range (range from_date : option string) (set_default : bool)
  (today : date) (db : database) : result (option date * database) :=
  let graph_range := graph_range_of range db in
  start_date <- resolve_start_date from_date graph_range today ;;
  let db1 :=
    match from_date with
    | Some fd =>
        if negb (fd =? "") && set_default
        then set_preference "default_range" ("from:" ++ fd) db
        else db
    | None => db
    end in
  let db2 :=
    match range with
    | Some r =>
        if set_default && negb (r =? "")
        then set_preference "default_range" graph_range db1
        else db1
    | None => db1
    end in
  Ok (start_date, db2).

(** *** [main] *)

(** The parsed command line. *)
Record args : Type := mkargs {
  arg_weight : option Q;            (* weight, type=float, nargs='?' *)
  arg_date : option string;         (* -d / --date *)
  arg_range : option string;        (* -r / --range, one of 1m 6m 1y all *)
  arg_from_date : option string;    (* -f / --from-date *)
  arg_set_default : bool;           (* -s / --set-default *)
  arg_import_history : bool;        (* --import-history *)
  arg_graph_only : bool             (* -g / --graph-only *)
}.

(** What a run reports. *)
Inductive outcome : Type :=
| Imported (n : nat)
| Graph (t : trend)
| NoData
| NoAction
| Done.

(** [args.weight] as a condition: a float is truthy when it is not zero. *)
Definition weight_given (a : args) : bool :=
  match arg_weight a with
  | Some w => negb (Qeq_bool w 0)
  | None => false
  end.

(** [main]: the database it leaves and what it reports or raises.  A write
    that was committed before an exception stays. *)
Definition main (a : args) (prev_weights : list (string * Q)) (today : date)
  (db : database) : database * result outcome :=
  let db := init_db db in
  if arg_import_history a then
    (import_historical_data prev_weights db,
     Ok (Imported (List.length prev_weights)))
  else
    let db :=
      match arg_weight a with
      | Some w =>
          if weight_given a && negb (arg_graph_only a) then
            let date :=
              match arg_date a with
              | Some d => if negb (d =? "") then d else isoformat today
              | None => isoformat today
              end in
            log_weight date w db
          else db
      | None => db
      end in
    match main_range (arg_range a) (arg_from_date a) (arg_set_default a)
                     today db with
    | Raise e => (db, Raise e)
    | Ok (start_date, db) =>
        if arg_graph_only a || weight_given a then
          match get_weights start_date db with
          | Raise e => (db, Raise e)
          | Ok ([], _) => (db, Ok NoData)
          | Ok (dates, weights) =>
              (db, t <- generate_graph dates weights ;; Ok (Graph t))
          end
        else if negb (arg_set_default a) then (db, Ok NoAction)
        else (db, Ok Done)
    end.

Close Scope string_scope.

(** * Vocabulary of the statements *)

(** The order [ORDER BY] sorts by. *)
Definition key_le {V : Type} (a b : string * V) : Prop :=
  String.leb (fst a) (fst b) = true.

(** The rows of a table under one key. *)
Definition rows_of {V : Type} (k : string) (t : table V)
  : list (string * V) :=
  filter (fun r => (fst r =? k)%string) t.

(** The ten characters of [isoformat], digit by digit. *)
Definition iso_chars (y3 y2 y1 y0 m1 m0 d1 d0 : Z) : string :=
  String (digit_char y3) (String (digit_char y2) (String (digit_char y1)
  (String (digit_char y0) (String "-" (String (digit_char m1)
  (String (digit_char m0) (String "-" (String (digit_char d1)
  (String (digit_char d0) EmptyString))))))))).

(** A zero-padded ISO text: it parses, and it is the [isoformat] of the date
    it parses to. *)
Definition iso_date_string (s : string) : bool :=
  match strptime s with
  | Ok d => (isoformat d =? s)%string
  | Raise _ => false
  end.

Definition date_lt (a b : date) : Prop := date_compare a b = Lt.

(** The data model of the store: one row per date text, every date text a
    zero-padded ISO date. *)
Definition store_wf (db : database) : Prop :=
  primary_key (weights db) /\
  Forall (fun r => iso_date_string (fst r) = true) (weights db).

(** [(d, w)] is a stored measurement: a row holds [w] under a text that
    denotes [d]. *)
Definition measurement (db : database) (d : date) (w : Q) : Prop :=
  exists k, In (k, w) (weights db) /\ strptime k = Ok d.

Definition from_start (start_date : option date) (d : date) : Prop :=
  match start_date with
  | Some s => date_leb s d = true
  | None => True
  end.

Definition valid_start (start_date : option date) : Prop :=
  match start_date with
  | Some s => valid_date s = true
  | None => True
  end.

(** What the query is specified to return. *)
Definition query_spec (start_date : option date) (db : database) : Prop :=
  exists dates ws,
    get_weights start_date db = Ok (dates, ws) /\
    List.length dates = List.length ws /\
    (forall d w, In (d, w) (combine dates ws) <->
                 measurement db d w /\ from_start start_date d) /\
    StronglySorted date_lt dates /\
    ((forall d w, measurement db d w -> ~ from_start start_date d) ->
     dates = [] /\ ws = []).

(** A fetched row and the date its text denotes. *)
Definition row_date (r : string * Q) (d : date) : Prop :=
  strptime (fst r) = Ok d /\ isoformat d = fst r /\ valid_date d = true.

(** Two rows logged through [log_weight], the first date not zero-padded. *)
Definition unpadded_db : database :=
  log_weight "2024-1-5" 1 (log_weight "2024-01-10" 2 empty_db).

(** The month and day [_ord2ymd] finds for the 0-based day [n] of a year. *)
Definition month_day (leapyear : bool) (n : Z) : Z * Z :=
  let month := Z.shiftr (n + 50) 5 in
  let preceding :=
    table_get DAYS_BEFORE_MONTH month
    + (if (2 <? month) && leapyear then 1 else 0) in
  if n <? preceding then
    let month := month - 1 in
    let preceding :=
      preceding
      - (table_get DAYS_IN_MONTH month
         + (if (month =? 2) && leapyear then 1 else 0)) in
    (month, n - preceding + 1)
  else (month, n - preceding + 1).

(** The calendar tables, by leap flag instead of year. *)
Definition year_days (leapyear : bool) : Z := if leapyear then 366 else 365.

Definition before_month (leapyear : bool) (m : Z) : Z :=
  table_get DAYS_BEFORE_MONTH m + (if (2 <? m) && leapyear then 1 else 0).

Definition in_month (leapyear : bool) (m : Z) : Z :=
  if (m =? 2) && leapyear then 29 else table_get DAYS_IN_MONTH m.

(** [month_day] returns a day of a month, at the right position. *)
Definition month_day_ok (leapyear : bool) (n : Z) : bool :=
  let '(m, d) := month_day leapyear n in
  (1 <=? m) && (m <=? 12) && (1 <=? d) && (d <=? in_month leapyear m)
  && (before_month leapyear m + d =? n + 1).

(** Month [m] ends where month [m + 1] begins, or where the year ends. *)
Definition month_ok (leapyear : bool) (m : Z) : bool :=
  (0 <=? before_month leapyear m)
  && (before_month leapyear m + in_month leapyear m
      =? (if m =? 12 then year_days leapyear
          else before_month leapyear (m + 1))).

(** The text after the year of an ISO date parses back to month and day. *)
Definition month_day_text_ok (m d : Z) : bool :=
  match re_md (zero_padded 2 m ++ ["-"%char] ++ zero_padded 2 d) with
  | (m', d', []) :: _ => (m' =? m) && (d' =? d)
  | _ => false
  end.

Definition not_colon (c : ascii) : Prop := c <> ":"%char.

(** A matcher that consumes a prefix without a colon. *)
Definition colon_free {A : Type} (m : list ascii -> list (A * list ascii))
  : Prop :=
  forall s v rest, In (v, rest) (m s) ->
                   exists pre, s = pre ++ rest /\ Forall not_colon pre.

(** The end-to-end scenario: three weekly measurements logged into an empty
    store, read back without a start date and fitted.  [slope_2dp] is the
    slope the scenario announces, to two decimals. *)
Definition scenario_db : database :=
  log_weight "2024-01-15" 176
    (log_weight "2024-01-08" 178 (log_weight "2024-01-01" 180 empty_db)).

Definition scenario_dates : list date :=
  [mkdate 2024 1 1; mkdate 2024 1 8; mkdate 2024 1 15].

Definition scenario_weights : list Q := [180%Q; 178%Q; 176%Q].

Definition scenario (slope_2dp : Q) : Prop :=
  get_weights None scenario_db = Ok (scenario_dates, scenario_weights) /\
  exists t,
    generate_graph scenario_dates scenario_weights = Ok t /\
    (slope t < 0)%Q /\
    (Qabs (slope t - slope_2dp) <= 5 # 1000)%Q /\
    (total_change t == -4)%Q.

(** The command line [weight_tracker.py W -d D]. *)
Definition log_args (w : Q) (d : string) : args :=
  mkargs (Some w) (Some d) None None false false false.




(** [k] is a key of [items]. *)
Definition has_key {V : Type} (k : string) (items : list (string * V)) : bool :=
  existsb (fun k' => (k =? k')%string) (map fst items).

(** The number of samples, as a rational. *)
Definition samples (l : list Q) : Q :=
  inject_Z (Z.of_nat (List.length l)).

(** [y] lies on the line of slope [a] and intercept [b] above [x]. *)
Definition on_line (a b x y : Q) : Prop := (y == a * x + b)%Q.

(** The database [main] works on after the optional logging step. *)
Definition after_logging (a : args) (today : date) (db : database)
  : database :=
  match arg_weight a with
  | Some w =>
      if weight_given a && negb (arg_graph_only a) then
        log_weight
          match arg_date a with
          | Some d => if negb (d =? "")%string then d else isoformat today
          | None => isoformat today
          end w db
      else db
  | None => db
  end.

Ltac decide_compare :=
  repeat match goal with
  | |- context [?x ?= ?y] =>
      first [ rewrite (proj2 (Z.compare_eq_iff x y)) by lia
            | rewrite (proj2 (Z.compare_lt_iff x y)) by lia
            | rewrite (proj2 (Z.compare_gt_iff x y)) by lia ]
  end.

(** * Properties *)

Example strptime_ex1 :
  strptime "2024-03-31" = Ok (mkdate 2024 3 31).
Proof. reflexivity. Qed.

Example strptime_ex2 : strptime "2024-1-5" = Ok (mkdate 2024 1 5).
Proof. reflexivity. Qed.

Example strptime_ex3 : strptime "2024-02-30" = Raise ValueError.
Proof. reflexivity. Qed.

Example strptime_ex4 : strptime "2024-13-01" = Raise ValueError.
Proof. reflexivity. Qed.

Example isoformat_ex1 : isoformat (mkdate 2024 3 1) = "2024-03-01"%string.
Proof. reflexivity. Qed.

Example toordinal_ex1 : toordinal (mkdate 2024 1 1) = 738886.
Proof. reflexivity. Qed.

Example sub_ex1 :
  date_sub_days (mkdate 2024 3 31) 30 = Ok (mkdate 2024 3 1).
Proof. reflexivity. Qed.

(** ** The bytewise order on strings *)

Lemma ascii_compare_refl (a : ascii) : Ascii.compare a a = Eq.
Proof. unfold Ascii.compare. apply N.compare_refl. Qed.

Lemma string_compare_refl (s : string) : String.compare s s = Eq.
Proof.
  induction s as [|a s IH]; simpl; [reflexivity|].
  now rewrite ascii_compare_refl.
Qed.

Lemma ascii_compare_lt_trans (a b c : ascii) :
  Ascii.compare a b = Lt -> Ascii.compare b c = Lt -> Ascii.compare a c = Lt.
Proof.
  unfold Ascii.compare. rewrite !N.compare_lt_iff. apply N.lt_trans.
Qed.

Lemma string_compare_lt_trans (s1 : string) :
  forall s2 s3, String.compare s1 s2 = Lt -> String.compare s2 s3 = Lt ->
                String.compare s1 s3 = Lt.
Proof.
  induction s1 as [|a s1 IH]; intros [|b s2] [|c s3]; simpl;
    try discriminate; try reflexivity.
  destruct (Ascii.compare a b) eqn:Hab; try discriminate;
    destruct (Ascii.compare b c) eqn:Hbc; try discriminate; intros H1 H2.
  - apply Ascii.compare_eq_iff in Hab, Hbc. subst.
    rewrite ascii_compare_refl. eauto.
  - apply Ascii.compare_eq_iff in Hab. subst. now rewrite Hbc.
  - apply Ascii.compare_eq_iff in Hbc. subst. now rewrite Hab.
  - now rewrite (ascii_compare_lt_trans a b c).
Qed.

Lemma string_leb_refl (s : string) : String.leb s s = true.
Proof. unfold String.leb. now rewrite string_compare_refl. Qed.

Lemma string_leb_trans (s1 s2 s3 : string) :
  String.leb s1 s2 = true -> String.leb s2 s3 = true ->
  String.leb s1 s3 = true.
Proof.
  unfold String.leb.
  destruct (String.compare s1 s2) eqn:H12; try discriminate;
    destruct (String.compare s2 s3) eqn:H23; try discriminate; intros _ _.
  - apply String.compare_eq_iff in H12, H23. subst.
    now rewrite string_compare_refl.
  - apply String.compare_eq_iff in H12. subst. now rewrite H23.
  - apply String.compare_eq_iff in H23. subst. now rewrite H12.
  - now rewrite (string_compare_lt_trans s1 s2 s3).
Qed.

Lemma string_leb_false_flip (s1 s2 : string) :
  String.leb s1 s2 = false -> String.leb s2 s1 = true.
Proof.
  intros H. destruct (String.leb_total s1 s2) as [H'|H']; congruence.
Qed.

(** ** [ORDER BY]: a sorted permutation of the rows *)

Section OrderBy.

Context {V : Type}.

Lemma insert_row_perm (r : string * V) (l : list (string * V)) :
  Permutation (r :: l) (insert_row r l).
Proof.
  induction l as [|r' l IH]; simpl; [reflexivity|].
  destruct (String.leb (fst r) (fst r')); [reflexivity|].
  rewrite perm_swap. now constructor.
Qed.

Lemma order_by_key_perm (l : list (string * V)) :
  Permutation l (order_by_key l).
Proof.
  induction l as [|r l IH]; simpl; [constructor|].
  rewrite <- insert_row_perm. now constructor.
Qed.

Lemma insert_row_sorted (r : string * V) (l : list (string * V)) :
  StronglySorted key_le l -> StronglySorted key_le (insert_row r l).
Proof.
  induction 1 as [|r' l Hs IH Hall]; simpl.
  - constructor; constructor.
  - destruct (String.leb (fst r) (fst r')) eqn:Hle.
    + constructor; [now constructor|].
      constructor; [exact Hle|].
      eapply Forall_impl; [|exact Hall].
      intros x Hx. unfold key_le in *. eapply string_leb_trans; eauto.
    + constructor; [exact IH|].
      apply (Permutation_Forall (insert_row_perm r l)).
      constructor; [|exact Hall].
      now apply string_leb_false_flip.
Qed.

Lemma order_by_key_sorted (l : list (string * V)) :
  StronglySorted key_le (order_by_key l).
Proof.
  induction l as [|r l IH]; simpl; [constructor|].
  now apply insert_row_sorted.
Qed.

Lemma order_by_key_In (l : list (string * V)) (r : string * V) :
  In r (order_by_key l) <-> In r l.
Proof.
  split; apply Permutation_in;
    [symmetry|]; apply order_by_key_perm.
Qed.


Lemma order_by_key_NoDup (l : list (string * V)) :
  NoDup (map fst l) -> NoDup (map fst (order_by_key l)).
Proof.
  apply Permutation_NoDup, Permutation_map, order_by_key_perm.
Qed.

Lemma where_key_ge_In (p : string) (t : table V) (r : string * V) :
  In r (where_key_ge p t) <-> In r t /\ String.leb p (fst r) = true.
Proof. unfold where_key_ge. apply filter_In. Qed.

Lemma where_key_ge_NoDup (p : string) (t : table V) :
  NoDup (map fst t) -> NoDup (map fst (where_key_ge p t)).
Proof.
  unfold where_key_ge.
  induction t as [|r t IH]; simpl; intros H; [constructor|].
  inversion H as [|? ? Hnin Hnd]; subst.
  destruct (String.leb p (fst r)); simpl; auto.
  constructor; auto.
  intros Hin. apply Hnin.
  apply in_map_iff in Hin. destruct Hin as [x [Hx Hin]].
  apply filter_In in Hin. apply in_map_iff. exists x. tauto.
Qed.

(** ** [INSERT OR REPLACE] *)

Lemma rows_of_insert_same (k : string) (v : V) (t : table V) :
  rows_of k (insert_or_replace k v t) = [(k, v)].
Proof.
  unfold rows_of, insert_or_replace.
  rewrite filter_app. simpl. rewrite String.eqb_refl.
  replace (filter _ (filter _ t)) with (@nil (string * V)); [reflexivity|].
  symmetry. induction t as [|r t IH]; simpl; [reflexivity|].
  destruct (fst r =? k)%string eqn:E; simpl; [exact IH|].
  now rewrite E.
Qed.

Lemma rows_of_insert_other (k k' : string) (v : V) (t : table V) :
  k' <> k -> rows_of k' (insert_or_replace k v t) = rows_of k' t.
Proof.
  intros Hne. unfold rows_of, insert_or_replace.
  rewrite filter_app. simpl.
  assert (Hk : (k =? k')%string = false) by (apply String.eqb_neq; congruence).
  rewrite Hk, app_nil_r.
  induction t as [|r t IH]; simpl; [reflexivity|].
  destruct (fst r =? k)%string eqn:E; simpl.
  - apply String.eqb_eq in E. rewrite E, Hk. exact IH.
  - destruct (fst r =? k')%string; [f_equal|]; exact IH.
Qed.

Lemma insert_or_replace_In (k : string) (v : V) (t : table V)
  (r : string * V) :
  In r (insert_or_replace k v t) <-> (In r t /\ fst r <> k) \/ r = (k, v).
Proof.
  unfold insert_or_replace. rewrite in_app_iff, filter_In. simpl.
  rewrite negb_true_iff, String.eqb_neq. intuition.
Qed.

Lemma insert_or_replace_primary_key (k : string) (v : V) (t : table V) :
  primary_key t -> primary_key (insert_or_replace k v t).
Proof.
  unfold primary_key, insert_or_replace. intros H.
  rewrite map_app. simpl.
  apply NoDup_app.
  - induction t as [|r t IH]; simpl; [constructor|].
    inversion H as [|? ? Hnin Hnd]; subst.
    destruct (fst r =? k)%string; simpl; auto.
    constructor; auto.
    intros Hin. apply Hnin.
    apply in_map_iff in Hin. destruct Hin as [x [Hx Hin]].
    apply filter_In in Hin. apply in_map_iff. exists x. tauto.
  - repeat constructor. intros [].
  - intros x Hin [Hx|[]]. subst x.
    apply in_map_iff in Hin. destruct Hin as [r [Hr Hin]].
    apply filter_In in Hin. destruct Hin as [_ Hin].
    apply negb_true_iff, String.eqb_neq in Hin. congruence.
Qed.

End OrderBy.

(** ** Comprehensions and [strptime] *)

Lemma comprehension_Ok {A B : Type} (f : A -> result B) (l : list A) :
  forall bs, comprehension f l = Ok bs -> Forall2 (fun a b => f a = Ok b) l bs.
Proof.
  induction l as [|a l IH]; simpl; intros bs H.
  - injection H as <-. constructor.
  - destruct (f a) as [b|e] eqn:Hfa; simpl in H; [|discriminate].
    destruct (comprehension f l) as [bs'|e] eqn:Hl; simpl in H;
      [|discriminate].
    injection H as <-. constructor; auto.
Qed.

Lemma comprehension_Raise {A B : Type} (f : A -> result B) (l : list A) :
  forall e, comprehension f l = Raise e -> exists a, In a l /\ f a = Raise e.
Proof.
  induction l as [|a l IH]; simpl; intros e H; [discriminate|].
  destruct (f a) as [b|e'] eqn:Hfa; simpl in H.
  - destruct (comprehension f l) as [bs'|e''] eqn:Hl; simpl in H;
      [discriminate|].
    injection H as <-. destruct (IH _ eq_refl) as [x [Hin Hx]]. eauto.
  - injection H as <-. eauto.
Qed.

Lemma comprehension_total {A B : Type} (f : A -> result B) (l : list A) :
  (forall a, In a l -> exists b, f a = Ok b) ->
  exists bs, comprehension f l = Ok bs.
Proof.
  induction l as [|a l IH]; simpl; intros H; [eauto|].
  destruct (H a (or_introl eq_refl)) as [b ->].
  destruct IH as [bs ->]; [intros; apply H; auto|].
  simpl. eauto.
Qed.

Lemma date_new_Ok (y m d : Z) (x : date) :
  date_new y m d = Ok x -> x = mkdate y m d /\ valid_date x = true.
Proof.
  unfold date_new. destruct (check_date_fields y m d) eqn:E; [|discriminate].
  intros H. injection H as <-. split; [reflexivity|exact E].
Qed.

Lemma date_new_Raise (y m d : Z) (e : exn) :
  date_new y m d = Raise e -> e = ValueError.
Proof.
  unfold date_new. destruct (check_date_fields y m d); [discriminate|].
  congruence.
Qed.

Lemma strptime_Raise (s : string) (e : exn) :
  strptime s = Raise e -> e = ValueError.
Proof.
  unfold strptime.
  destruct (re_match (list_ascii_of_string s)) as [|[[[y m] d] [|c rest]] ms];
    try congruence.
  apply date_new_Raise.
Qed.

Lemma strptime_valid (s : string) (d : date) :
  strptime s = Ok d -> valid_date d = true.
Proof.
  unfold strptime.
  destruct (re_match (list_ascii_of_string s)) as [|[[[y m] d'] [|c rest]] ms];
    try discriminate.
  intros H. now apply date_new_Ok in H.
Qed.

Lemma fetchall_In (start : option string) (db : database) (r : string * Q) :
  In r (fetchall start db) <->
  In r (weights db) /\
  match start with Some p => String.leb p (fst r) = true | None => True end.
Proof.
  destruct start as [p|]; simpl.
  - now rewrite order_by_key_In, where_key_ge_In.
  - rewrite order_by_key_In. tauto.
Qed.

Lemma log_weight_primary_key (d : string) (w : Q) (db : database) :
  primary_key (weights db) -> primary_key (weights (log_weight d w db)).
Proof. apply insert_or_replace_primary_key. Qed.

Lemma log_weight_preferences (d : string) (w : Q) (db : database) :
  preferences (log_weight d w db) = preferences db.
Proof. reflexivity. Qed.

Lemma Forall2_In_r {A B : Type} (P : A -> B -> Prop)
  (l : list A) (l' : list B) :
  Forall2 P l l' -> forall b, In b l' -> exists a, In a l /\ P a b.
Proof.
  induction 1 as [|a b l l' Hab _ IH]; intros b' []; simpl.
  - subst. eauto.
  - destruct (IH b') as [a' [Hin Hp]]; eauto.
Qed.

Lemma Forall2_In_l {A B : Type} (P : A -> B -> Prop)
  (l : list A) (l' : list B) :
  Forall2 P l l' -> forall a, In a l -> exists b, In b l' /\ P a b.
Proof.
  induction 1 as [|a b l l' Hab _ IH]; intros a' []; simpl.
  - subst. eauto.
  - destruct (IH a') as [b' [Hin Hp]]; eauto.
Qed.

Lemma Forall2_nth_error {A B : Type} (P : A -> B -> Prop)
  (l : list A) (l' : list B) :
  Forall2 P l l' ->
  forall i b, nth_error l' i = Some b ->
              exists a, nth_error l i = Some a /\ P a b.
Proof.
  induction 1 as [|a b l l' Hab _ IH]; intros [|i] b'; simpl;
    try discriminate.
  - intros H. injection H as <-. eauto.
  - apply IH.
Qed.


(** ** Dates and their ISO text *)

Lemma code_digit_char (n : Z) : 0 <= n <= 9 -> code (digit_char n) = 48 + n.
Proof.
  intros H. unfold code, digit_char.
  rewrite N_ascii_embedding; lia.
Qed.

Lemma ascii_compare_code (a b : ascii) :
  Ascii.compare a b = (code a ?= code b).
Proof. unfold Ascii.compare, code. now rewrite N2Z.inj_compare. Qed.

Lemma digit_char_compare (a b : Z) :
  0 <= a <= 9 -> 0 <= b <= 9 ->
  Ascii.compare (digit_char a) (digit_char b) = (a ?= b).
Proof.
  intros Ha Hb. rewrite ascii_compare_code, !code_digit_char by assumption.
  apply Z.add_compare_mono_l.
Qed.

Lemma days_in_month_bounds (y m : Z) :
  1 <= m <= 12 -> 28 <= days_in_month y m <= 31.
Proof.
  intros H. unfold days_in_month.
  destruct ((m =? 2) && is_leap y); [lia|].
  assert (Hm : m = 1 \/ m = 2 \/ m = 3 \/ m = 4 \/ m = 5 \/ m = 6 \/ m = 7
               \/ m = 8 \/ m = 9 \/ m = 10 \/ m = 11 \/ m = 12) by lia.
  repeat (destruct Hm as [->|Hm]; [cbv; split; discriminate|]).
  subst m. cbv. split; discriminate.
Qed.

Lemma valid_date_bounds (d : date) :
  valid_date d = true ->
  1 <= year d <= 9999 /\ 1 <= month d <= 12 /\
  1 <= day d <= days_in_month (year d) (month d) /\ day d <= 31.
Proof.
  unfold valid_date, check_date_fields, MINYEAR, MAXYEAR.
  rewrite !andb_true_iff, !Z.leb_le. intros H.
  assert (Hm : 1 <= month d <= 12) by lia.
  pose proof (days_in_month_bounds (year d) (month d) Hm). lia.
Qed.

Lemma isoformat_chars (d : date) :
  isoformat d =
  iso_chars (year d / 10 / 10 / 10 mod 10) (year d / 10 / 10 mod 10)
            (year d / 10 mod 10) (year d mod 10)
            (month d / 10 mod 10) (month d mod 10)
            (day d / 10 mod 10) (day d mod 10).
Proof. reflexivity. Qed.

Lemma iso_chars_compare (a3 a2 a1 a0 am1 am0 ad1 ad0
                         b3 b2 b1 b0 bm1 bm0 bd1 bd0 : Z) :
  0 <= a3 <= 9 -> 0 <= a2 <= 9 -> 0 <= a1 <= 9 -> 0 <= a0 <= 9 ->
  0 <= am1 <= 9 -> 0 <= am0 <= 9 -> 0 <= ad1 <= 9 -> 0 <= ad0 <= 9 ->
  0 <= b3 <= 9 -> 0 <= b2 <= 9 -> 0 <= b1 <= 9 -> 0 <= b0 <= 9 ->
  0 <= bm1 <= 9 -> 0 <= bm0 <= 9 -> 0 <= bd1 <= 9 -> 0 <= bd0 <= 9 ->
  String.compare (iso_chars a3 a2 a1 a0 am1 am0 ad1 ad0)
                 (iso_chars b3 b2 b1 b0 bm1 bm0 bd1 bd0)
  = date_compare
      (mkdate (1000 * a3 + 100 * a2 + 10 * a1 + a0) (10 * am1 + am0)
              (10 * ad1 + ad0))
      (mkdate (1000 * b3 + 100 * b2 + 10 * b1 + b0) (10 * bm1 + bm0)
              (10 * bd1 + bd0)).
Proof.
  intros. unfold iso_chars, date_compare. cbn [String.compare year month day].
  rewrite !digit_char_compare by assumption.
  rewrite !ascii_compare_refl.
  destruct (Z.compare_spec a3 b3); [|decide_compare; reflexivity ..].
  destruct (Z.compare_spec a2 b2); [|decide_compare; reflexivity ..].
  destruct (Z.compare_spec a1 b1); [|decide_compare; reflexivity ..].
  destruct (Z.compare_spec a0 b0); [|decide_compare; reflexivity ..].
  destruct (Z.compare_spec am1 bm1); [|decide_compare; reflexivity ..].
  destruct (Z.compare_spec am0 bm0); [|decide_compare; reflexivity ..].
  destruct (Z.compare_spec ad1 bd1); [|decide_compare; reflexivity ..].
  destruct (Z.compare_spec ad0 bd0); decide_compare; reflexivity.
Qed.

Lemma four_digits (n : Z) :
  0 <= n <= 9999 ->
  n = 1000 * (n / 10 / 10 / 10 mod 10) + 100 * (n / 10 / 10 mod 10)
      + 10 * (n / 10 mod 10) + n mod 10.
Proof. intros H. Z.to_euclidean_division_equations. lia. Qed.

Lemma two_digits (n : Z) :
  0 <= n <= 99 -> n = 10 * (n / 10 mod 10) + n mod 10.
Proof. intros H. Z.to_euclidean_division_equations. lia. Qed.

Lemma mod10_digit (n : Z) : 0 <= n mod 10 <= 9.
Proof. pose proof (Z.mod_pos_bound n 10). lia. Qed.

Lemma isoformat_compare (a b : date) :
  valid_date a = true -> valid_date b = true ->
  String.compare (isoformat a) (isoformat b) = date_compare a b.
Proof.
  intros Ha Hb.
  apply valid_date_bounds in Ha, Hb.
  rewrite !isoformat_chars, iso_chars_compare by apply mod10_digit.
  rewrite <- !four_digits, <- !two_digits by lia.
  now destruct a, b.
Qed.

Lemma isoformat_leb (a b : date) :
  valid_date a = true -> valid_date b = true ->
  String.leb (isoformat a) (isoformat b) = date_leb a b.
Proof.
  intros Ha Hb. unfold String.leb, date_leb.
  now rewrite isoformat_compare.
Qed.

Lemma iso_date_string_inv (s : string) :
  iso_date_string s = true ->
  exists d, strptime s = Ok d /\ isoformat d = s /\ valid_date d = true.
Proof.
  unfold iso_date_string. destruct (strptime s) as [d|e] eqn:E;
    [|discriminate].
  intros H. apply String.eqb_eq in H. exists d. repeat split; auto.
  eapply strptime_valid; eauto.
Qed.

(** ** Calendar arithmetic: ordinals *)

Lemma days_before_year_split (n400 n100 n4 n1 : Z) :
  0 <= n100 <= 3 -> 0 <= n4 <= 24 -> 0 <= n1 <= 3 ->
  days_before_year (400 * n400 + 100 * n100 + 4 * n4 + n1 + 1)
  = 146097 * n400 + 36524 * n100 + 1461 * n4 + 365 * n1.
Proof.
  intros. unfold days_before_year. Z.to_euclidean_division_equations. lia.
Qed.

Lemma is_leap_split (n400 n100 n4 n1 : Z) :
  0 <= n100 <= 3 -> 0 <= n4 <= 24 -> 0 <= n1 <= 3 ->
  is_leap (400 * n400 + 100 * n100 + 4 * n4 + n1 + 1)
  = (n1 =? 3) && (negb (n4 =? 24) || (n100 =? 3)).
Proof.
  intros. unfold is_leap.
  destruct (Z.eqb_spec n1 3), (Z.eqb_spec n4 24), (Z.eqb_spec n100 3);
    cbn [andb orb negb];
    repeat match goal with
    | |- context [?a mod ?b =? 0] => destruct (Z.eqb_spec (a mod b) 0)
    end; cbn [andb orb negb]; try reflexivity; exfalso;
    Z.to_euclidean_division_equations; lia.
Qed.

Lemma month_day_ok_all :
  forallb (fun i => month_day_ok true (Z.of_nat i)
                    && month_day_ok false (Z.of_nat i)) (seq 0 365) = true.
Proof. vm_compute. reflexivity. Qed.

Lemma month_day_correct (leapyear : bool) (n m d : Z) :
  0 <= n < 365 -> month_day leapyear n = (m, d) ->
  1 <= m <= 12 /\ 1 <= d <= in_month leapyear m /\
  before_month leapyear m + d = n + 1.
Proof.
  intros Hn Hmd.
  pose proof month_day_ok_all as Hall.
  rewrite forallb_forall in Hall.
  assert (Hin : In (Z.to_nat n) (seq 0 365)) by (apply in_seq; lia).
  specialize (Hall _ Hin).
  rewrite Z2Nat.id in Hall by lia.
  apply andb_true_iff in Hall.
  assert (Hok : month_day_ok leapyear n = true)
    by (destruct leapyear; tauto).
  unfold month_day_ok in Hok. rewrite Hmd in Hok.
  rewrite !andb_true_iff, !Z.leb_le, Z.eqb_eq in Hok. lia.
Qed.

Lemma ord2ymd_unfold (n : Z) :
  ord2ymd n =
  let n0 := n - 1 in
  let n400 := n0 / 146097 in
  let r1 := n0 mod 146097 in
  let n100 := r1 / 36524 in
  let r2 := r1 mod 36524 in
  let n4 := r2 / 1461 in
  let r3 := r2 mod 1461 in
  let n1 := r3 / 365 in
  let r4 := r3 mod 365 in
  let y := 400 * n400 + 100 * n100 + 4 * n4 + n1 + 1 in
  if (n1 =? 4) || (n100 =? 4) then (y - 1, 12, 31)
  else
    let '(m, d) :=
      month_day ((n1 =? 3) && (negb (n4 =? 24) || (n100 =? 3))) r4 in
    (y, m, d).
Proof.
  unfold ord2ymd, month_day, DI400Y, DI100Y, DI4Y. cbv zeta.
  replace (400 * ((n - 1) / 146097) + 100 * ((n - 1) mod 146097 / 36524)
           + 4 * ((n - 1) mod 146097 mod 36524 / 1461)
           + (n - 1) mod 146097 mod 36524 mod 1461 / 365 + 1)
    with ((n - 1) / 146097 * 400 + 1
          + ((n - 1) mod 146097 / 36524 * 100
             + (n - 1) mod 146097 mod 36524 / 1461 * 4
             + (n - 1) mod 146097 mod 36524 mod 1461 / 365)) by lia.
  destruct (_ || _); [reflexivity|].
  destruct (_ <? _); reflexivity.
Qed.

(** [_ord2ymd] inverts [_ymd2ord] and returns the fields of a date. *)
Lemma ord2ymd_correct (n y m d : Z) :
  1 <= n <= MAXORDINAL -> ord2ymd n = (y, m, d) ->
  check_date_fields y m d = true /\ ymd2ord y m d = n.
Proof.
  unfold MAXORDINAL. intros Hn. rewrite ord2ymd_unfold. cbv zeta.
  pose proof (Z.div_mod (n - 1) 146097 ltac:(lia)) as E1.
  pose proof (Z.mod_pos_bound (n - 1) 146097 ltac:(lia)) as B1.
  set (n400 := (n - 1) / 146097) in *.
  set (r1 := (n - 1) mod 146097) in *.
  pose proof (Z.div_mod r1 36524 ltac:(lia)) as E2.
  pose proof (Z.mod_pos_bound r1 36524 ltac:(lia)) as B2.
  set (n100 := r1 / 36524) in *. set (r2 := r1 mod 36524) in *.
  pose proof (Z.div_mod r2 1461 ltac:(lia)) as E3.
  pose proof (Z.mod_pos_bound r2 1461 ltac:(lia)) as B3.
  set (n4 := r2 / 1461) in *. set (r3 := r2 mod 1461) in *.
  pose proof (Z.div_mod r3 365 ltac:(lia)) as E4.
  pose proof (Z.mod_pos_bound r3 365 ltac:(lia)) as B4.
  set (n1 := r3 / 365) in *. set (r4 := r3 mod 365) in *.
  clearbody n400 r1 n100 r2 n4 r3 n1 r4.
  assert (H400 : 0 <= n400 <= 24) by lia.
  assert (H100 : 0 <= n100 <= 4) by lia.
  assert (H4 : 0 <= n4 <= 24) by lia.
  assert (H1 : 0 <= n1 <= 4) by lia.
  set (Y := 400 * n400 + 100 * n100 + 4 * n4 + n1 + 1).
  destruct ((n1 =? 4) || (n100 =? 4)) eqn:Hsp.
  - (* the last day of a leap year *)
    intros H. injection H as <- <- <-. subst Y.
    apply orb_true_iff in Hsp. rewrite !Z.eqb_eq in Hsp.
    assert (Hy : exists a b, 0 <= a <= 3 /\ 0 <= b <= 24
                             /\ (b = 24 -> a = 3)
                             /\ 400 * n400 + 100 * n100 + 4 * n4 + n1 + 1 - 1
                                = 400 * n400 + 100 * a + 4 * b + 3 + 1
                             /\ n = 146097 * n400 + 36524 * a + 1461 * b
                                    + 1461).
    { destruct (Z.eq_dec n100 4).
      - exists 3, 24. lia.
      - exists n100, n4. lia. }
    destruct Hy as [a [b [Ha [Hb [Hab [-> ->]]]]]].
    unfold check_date_fields, ymd2ord, days_in_month, days_before_month,
      MINYEAR, MAXYEAR.
    rewrite days_before_year_split, is_leap_split by lia.
    assert (Hl : (3 =? 3) && (negb (b =? 24) || (a =? 3)) = true).
    { destruct (Z.eqb_spec b 24), (Z.eqb_spec a 3); try reflexivity. lia. }
    rewrite Hl.
    change (table_get DAYS_IN_MONTH 12) with 31.
    change (table_get DAYS_BEFORE_MONTH 12) with 334.
    change (12 =? 2) with false. change (2 <? 12) with true.
    cbn [andb]. split; [|lia].
    rewrite !andb_true_iff, !Z.leb_le. lia.
  - apply orb_false_iff in Hsp. rewrite !Z.eqb_neq in Hsp.
    destruct (month_day _ r4) as [m' d'] eqn:Hmd.
    intros H. injection H as <- <- <-. subst Y.
    apply month_day_correct in Hmd; [|lia].
    rewrite <- (is_leap_split n400) in Hmd by lia.
    unfold in_month, before_month in Hmd.
    unfold check_date_fields, ymd2ord, days_in_month, days_before_month,
      MINYEAR, MAXYEAR.
    rewrite days_before_year_split by lia.
    split; [|lia].
    rewrite !andb_true_iff, !Z.leb_le. lia.
Qed.

Lemma month_ok_all :
  forallb (fun i => month_ok true (Z.of_nat i) && month_ok false (Z.of_nat i))
          (seq 1 12) = true.
Proof. vm_compute. reflexivity. Qed.

Lemma month_ok_correct (leapyear : bool) (m : Z) :
  1 <= m <= 12 ->
  0 <= before_month leapyear m /\
  before_month leapyear m + in_month leapyear m
  = (if m =? 12 then year_days leapyear else before_month leapyear (m + 1)).
Proof.
  intros Hm. pose proof month_ok_all as Hall.
  rewrite forallb_forall in Hall.
  assert (Hin : In (Z.to_nat m) (seq 1 12)) by (apply in_seq; lia).
  specialize (Hall _ Hin). rewrite Z2Nat.id in Hall by lia.
  apply andb_true_iff in Hall.
  assert (Hok : month_ok leapyear m = true) by (destruct leapyear; tauto).
  unfold month_ok in Hok.
  rewrite andb_true_iff, Z.leb_le, Z.eqb_eq in Hok. exact Hok.
Qed.

Lemma in_month_pos (leapyear : bool) (m : Z) :
  1 <= m <= 12 -> 0 <= in_month leapyear m.
Proof.
  intros Hm. pose proof (days_in_month_bounds 1 m Hm) as B.
  unfold in_month, days_in_month in *.
  change (is_leap 1) with false in B. rewrite andb_false_r in B.
  destruct ((m =? 2) && leapyear); lia.
Qed.

Lemma before_month_mono_nat (leapyear : bool) (m1 : Z) (k : nat) :
  1 <= m1 -> m1 + Z.of_nat k <= 12 ->
  before_month leapyear m1 <= before_month leapyear (m1 + Z.of_nat k).
Proof.
  intros H1. induction k as [|k IH]; intros H2.
  - rewrite Z.add_0_r. lia.
  - rewrite Nat2Z.inj_succ in *.
    assert (Hk : 1 <= m1 + Z.of_nat k <= 12) by lia.
    destruct (month_ok_correct leapyear _ Hk) as [_ E].
    destruct (Z.eqb_spec (m1 + Z.of_nat k) 12); [lia|].
    replace (m1 + Z.succ (Z.of_nat k)) with (m1 + Z.of_nat k + 1) by lia.
    pose proof (in_month_pos leapyear _ Hk).
    specialize (IH ltac:(lia)). lia.
Qed.

Lemma before_month_mono (leapyear : bool) (m1 m2 : Z) :
  1 <= m1 -> m1 <= m2 -> m2 <= 12 ->
  before_month leapyear m1 <= before_month leapyear m2.
Proof.
  intros H1 H12 H2.
  replace m2 with (m1 + Z.of_nat (Z.to_nat (m2 - m1))) by lia.
  apply before_month_mono_nat; lia.
Qed.

Lemma before_month_year (leapyear : bool) (m : Z) :
  1 <= m <= 12 ->
  before_month leapyear m + in_month leapyear m <= year_days leapyear.
Proof.
  intros Hm.
  destruct (month_ok_correct leapyear 12 ltac:(lia)) as [_ E12].
  change (12 =? 12) with true in E12. cbv iota in E12. rewrite <- E12.
  destruct (Z.eq_dec m 12) as [->|Hne]; [lia|].
  destruct (month_ok_correct leapyear m Hm) as [_ E].
  destruct (Z.eqb_spec m 12); [lia|]. rewrite E.
  pose proof (before_month_mono leapyear (m + 1) 12 ltac:(lia) ltac:(lia)
                ltac:(lia)).
  pose proof (in_month_pos leapyear 12 ltac:(lia)).
  lia.
Qed.

Lemma days_before_year_succ (y : Z) :
  days_before_year (y + 1) = days_before_year y + year_days (is_leap y).
Proof.
  unfold days_before_year, year_days, is_leap.
  repeat match goal with
  | |- context [?a mod ?b =? 0] => destruct (Z.eqb_spec (a mod b) 0)
  end; cbn [andb orb negb];
  Z.to_euclidean_division_equations; lia.
Qed.

Lemma days_before_year_mono (y1 y2 : Z) :
  y1 <= y2 -> days_before_year y1 <= days_before_year y2.
Proof.
  intros H. unfold days_before_year.
  Z.to_euclidean_division_equations. lia.
Qed.

Lemma ymd2ord_split (y m d : Z) :
  ymd2ord y m d = days_before_year y + before_month (is_leap y) m + d.
Proof. reflexivity. Qed.

Lemma days_in_month_in_month (y m : Z) :
  days_in_month y m = in_month (is_leap y) m.
Proof. reflexivity. Qed.

Lemma toordinal_bounds (d : date) :
  valid_date d = true ->
  days_before_year (year d) < toordinal d <= days_before_year (year d + 1)
  /\ 1 <= toordinal d <= MAXORDINAL.
Proof.
  intros Hv. apply valid_date_bounds in Hv.
  destruct Hv as [Hy [Hm [Hd _]]].
  unfold toordinal. rewrite ymd2ord_split.
  rewrite days_in_month_in_month in Hd.
  pose proof (month_ok_correct (is_leap (year d)) (month d) Hm) as [H0 _].
  pose proof (before_month_year (is_leap (year d)) (month d) Hm) as H1.
  pose proof (days_before_year_succ (year d)) as Hs.
  pose proof (days_before_year_mono 1 (year d) ltac:(lia)) as Hlo.
  pose proof (days_before_year_mono (year d + 1) 10000 ltac:(lia)) as Hhi.
  change (days_before_year 1) with 0 in Hlo.
  change (days_before_year 10000) with 3652059 in Hhi.
  unfold MAXORDINAL. lia.
Qed.

(** The comparison of dates is the comparison of their day numbers. *)
Lemma date_compare_toordinal (a b : date) :
  valid_date a = true -> valid_date b = true ->
  date_compare a b = (toordinal a ?= toordinal b).
Proof.
  intros Ha Hb.
  pose proof (toordinal_bounds a Ha) as [Ba _].
  pose proof (toordinal_bounds b Hb) as [Bb _].
  apply valid_date_bounds in Ha, Hb.
  destruct Ha as [_ [Hma [Hda _]]], Hb as [_ [Hmb [Hdb _]]].
  unfold date_compare.
  destruct (Z.compare_spec (year a) (year b)) as [Ey|Ly|Ly].
  - unfold toordinal in *. rewrite !ymd2ord_split in *.
    rewrite days_in_month_in_month in Hda, Hdb.
    rewrite Ey in *. set (l := is_leap (year b)) in *.
    destruct (Z.compare_spec (month a) (month b)) as [Em|Lm|Lm].
    + rewrite Em. symmetry. destruct (Z.compare_spec (day a) (day b));
        decide_compare; reflexivity.
    + pose proof (month_ok_correct l (month a) Hma) as [_ E].
      destruct (Z.eqb_spec (month a) 12); [lia|].
      pose proof (before_month_mono l (month a + 1) (month b)
                    ltac:(lia) ltac:(lia) ltac:(lia)).
      decide_compare. reflexivity.
    + pose proof (month_ok_correct l (month b) Hmb) as [_ E].
      destruct (Z.eqb_spec (month b) 12); [lia|].
      pose proof (before_month_mono l (month b + 1) (month a)
                    ltac:(lia) ltac:(lia) ltac:(lia)).
      decide_compare. reflexivity.
  - pose proof (days_before_year_mono (year a + 1) (year b) ltac:(lia)).
    decide_compare. reflexivity.
  - pose proof (days_before_year_mono (year b + 1) (year a) ltac:(lia)).
    decide_compare. reflexivity.
Qed.

(** [today - timedelta(days=n)] is the date [n] days before [today]. *)
Lemma date_sub_days_correct (today : date) (n : Z) :
  valid_date today = true -> 0 <= n < toordinal today ->
  exists d, date_sub_days today n = Ok d /\ valid_date d = true
            /\ toordinal d = toordinal today - n.
Proof.
  intros Hv Hn. pose proof (toordinal_bounds today Hv) as [_ Hb].
  unfold date_sub_days, date_add_days, fromordinal.
  replace (toordinal today + - n) with (toordinal today - n) by lia.
  destruct (Z.ltb_spec 0 (toordinal today - n)); [|lia].
  destruct (Z.leb_spec (toordinal today - n) MAXORDINAL); [|lia].
  cbn [andb].
  destruct (ord2ymd (toordinal today - n)) as [[y m] d] eqn:E.
  apply ord2ymd_correct in E; [|lia]. destruct E as [Hc Ho].
  unfold date_new. rewrite Hc. exists (mkdate y m d). auto.
Qed.

(** ** What [strptime] accepts *)

Lemma in_range_not_colon (lo hi c : ascii) :
  code hi < 58 -> in_range lo hi c = true -> not_colon c.
Proof.
  unfold in_range. rewrite andb_true_iff, !Z.leb_le.
  intros Hhi [_ Hc] ->. change (code ":") with 58 in Hc. lia.
Qed.

Lemma is_digit_not_colon (c : ascii) : is_digit c = true -> not_colon c.
Proof. apply (in_range_not_colon "0" "9"). reflexivity. Qed.

Lemma re_Y_colon_free : colon_free re_Y.
Proof.
  intros [|a [|b [|c [|d s]]]] v rest; simpl; try tauto.
  destruct (is_digit a) eqn:Ha, (is_digit b) eqn:Hb, (is_digit c) eqn:Hc,
    (is_digit d) eqn:Hd; simpl; try tauto.
  intros [E|[]]. injection E as _ <-.
  exists [a; b; c; d]. split; [reflexivity|].
  repeat constructor; now apply is_digit_not_colon.
Qed.

Lemma two_chars_colon_free (lo1 hi1 lo2 hi2 : ascii) :
  code hi1 < 58 -> code hi2 < 58 -> colon_free (two_chars lo1 hi1 lo2 hi2).
Proof.
  intros H1 H2 [|a [|b s]] v rest; simpl; try tauto.
  destruct (in_range lo1 hi1 a) eqn:Ha, (in_range lo2 hi2 b) eqn:Hb;
    simpl; try tauto.
  intros [E|[]]. injection E as _ <-.
  exists [a; b]. split; [reflexivity|].
  constructor; [exact (in_range_not_colon _ _ _ H1 Ha)|].
  constructor; [exact (in_range_not_colon _ _ _ H2 Hb)|constructor].
Qed.

Lemma one_char_colon_free (lo hi : ascii) :
  code hi < 58 -> colon_free (one_char lo hi).
Proof.
  intros H1 [|a s] v rest; simpl; try tauto.
  destruct (in_range lo hi a) eqn:Ha; simpl; try tauto.
  intros [E|[]]. injection E as _ <-.
  exists [a]. split; [reflexivity|].
  constructor; [exact (in_range_not_colon _ _ _ H1 Ha)|constructor].
Qed.

Lemma space_char_colon_free : colon_free space_char.
Proof.
  intros [|a [|b s]] v rest; simpl; try tauto.
  destruct (Z.eqb_spec (code a) 32) as [Ha|]; simpl; try tauto.
  destruct (in_range "1" "9" b) eqn:Hb; simpl; try tauto.
  intros [E|[]]. injection E as _ <-.
  exists [a; b]. split; [reflexivity|].
  constructor; [intros ->; discriminate Ha|].
  constructor; [|constructor].
  apply (in_range_not_colon "1" "9"); [reflexivity|exact Hb].
Qed.

Lemma alt_colon_free (ms : list matcher) :
  Forall colon_free ms -> colon_free (alt ms).
Proof.
  intros Hms s v rest Hin. unfold alt in Hin.
  apply in_flat_map in Hin. destruct Hin as [m [Hm Hin]].
  rewrite Forall_forall in Hms. eapply Hms; eauto.
Qed.

Lemma re_m_colon_free : colon_free re_m.
Proof.
  apply alt_colon_free.
  repeat constructor;
    first [apply two_chars_colon_free | apply one_char_colon_free];
    reflexivity.
Qed.

Lemma re_d_colon_free : colon_free re_d.
Proof.
  apply alt_colon_free.
  repeat constructor;
    first [apply two_chars_colon_free | apply one_char_colon_free
          | apply space_char_colon_free];
    reflexivity.
Qed.

Lemma lit_dash (s rest : list ascii) :
  In rest (lit "-" s) -> exists a, s = a :: rest /\ not_colon a.
Proof.
  destruct s as [|a s]; simpl; [tauto|].
  destruct (Z.eqb_spec (code a) (code "-")) as [Ha|]; simpl; [|tauto].
  intros [<-|[]]. exists a. split; [reflexivity|].
  intros ->. discriminate Ha.
Qed.

Lemma re_md_colon_free (s : list ascii) (m d : Z) (rest : list ascii) :
  In (m, d, rest) (re_md s) ->
  exists pre, s = pre ++ rest /\ Forall not_colon pre.
Proof.
  unfold re_md. intros H.
  apply in_flat_map in H. destruct H as [[m' s3] [Hm H]].
  apply in_flat_map in H. destruct H as [s4 [H2 H]].
  apply in_map_iff in H. destruct H as [[d' s5] [E Hd]].
  injection E as -> -> ->.
  apply re_m_colon_free in Hm. destruct Hm as [p2 [-> F2]].
  apply lit_dash in H2. destruct H2 as [a2 [-> N2]].
  apply re_d_colon_free in Hd. destruct Hd as [p3 [-> F3]].
  exists (p2 ++ a2 :: p3). split.
  - now rewrite <- app_assoc.
  - apply Forall_app. split; [exact F2|]. constructor; [exact N2|exact F3].
Qed.

Lemma re_match_colon_free (s : list ascii) (y m d : Z) (rest : list ascii) :
  In (y, m, d, rest) (re_match s) ->
  exists pre, s = pre ++ rest /\ Forall not_colon pre.
Proof.
  unfold re_match. intros H.
  apply in_flat_map in H. destruct H as [[y' s1] [HY H]].
  apply in_flat_map in H. destruct H as [s2 [H1 H]].
  apply in_map_iff in H. destruct H as [[[m' d'] s5] [E Hmd]].
  injection E as -> -> -> ->.
  apply re_Y_colon_free in HY. destruct HY as [p1 [-> F1]].
  apply lit_dash in H1. destruct H1 as [a1 [-> N1]].
  apply re_md_colon_free in Hmd. destruct Hmd as [p2 [-> F2]].
  exists (p1 ++ a1 :: p2). split.
  - now rewrite <- app_assoc.
  - apply Forall_app. split; [exact F1|]. constructor; [exact N1|exact F2].
Qed.

Lemma strptime_colon_free (s : string) (d : date) :
  strptime s = Ok d -> Forall not_colon (list_ascii_of_string s).
Proof.
  unfold strptime.
  destruct (re_match (list_ascii_of_string s))
    as [|[[[y m] d'] [|c rest]] ms] eqn:E; try discriminate.
  intros _.
  destruct (re_match_colon_free (list_ascii_of_string s) y m d' [])
    as [pre [Hs Hf]]; [rewrite E; now left|].
  rewrite app_nil_r in Hs. now rewrite Hs.
Qed.

Lemma strptime_nonempty (s : string) (d : date) :
  strptime s = Ok d -> (s =? "")%string = false.
Proof. destruct s; [discriminate|reflexivity]. Qed.

(** *** [strptime] reads back what [isoformat] writes *)

Lemma is_digit_digit_char (n : Z) : 0 <= n <= 9 -> is_digit (digit_char n) = true.
Proof.
  intros H. unfold is_digit. rewrite code_digit_char by assumption.
  apply andb_true_iff. rewrite !Z.leb_le. lia.
Qed.

Lemma digit_val_digit_char (n : Z) : 0 <= n <= 9 -> digit_val (digit_char n) = n.
Proof.
  intros H. unfold digit_val. rewrite code_digit_char by assumption. lia.
Qed.

Lemma month_day_text_ok_all :
  forallb (fun m => forallb (fun d => month_day_text_ok (Z.of_nat m)
                                                        (Z.of_nat d))
                            (seq 1 31)) (seq 1 12) = true.
Proof. vm_compute. reflexivity. Qed.

Lemma re_md_iso (m d : Z) :
  1 <= m <= 12 -> 1 <= d <= 31 ->
  exists rest,
    re_md (zero_padded 2 m ++ ["-"%char] ++ zero_padded 2 d)
    = (m, d, []) :: rest.
Proof.
  intros Hm Hd. pose proof month_day_text_ok_all as Hall.
  rewrite forallb_forall in Hall.
  assert (Hin : In (Z.to_nat m) (seq 1 12)) by (apply in_seq; lia).
  specialize (Hall _ Hin). rewrite forallb_forall in Hall.
  assert (Hin' : In (Z.to_nat d) (seq 1 31)) by (apply in_seq; lia).
  specialize (Hall _ Hin'). rewrite !Z2Nat.id in Hall by lia.
  unfold month_day_text_ok in Hall.
  destruct (re_md _) as [|[[m' d'] [|c r]] rest]; try discriminate.
  apply andb_true_iff in Hall. rewrite !Z.eqb_eq in Hall.
  destruct Hall as [-> ->]. eauto.
Qed.

Lemma strptime_isoformat (d : date) :
  valid_date d = true -> strptime (isoformat d) = Ok d.
Proof.
  intros Hv. pose proof (valid_date_bounds d Hv) as [Hy [Hm [Hd1 Hd]]].
  unfold strptime, isoformat.
  rewrite list_ascii_of_string_of_list_ascii.
  destruct (re_md_iso (month d) (day d) Hm ltac:(lia)) as [rest Hmd].
  set (tail := zero_padded 2 (month d) ++ ["-"%char]
               ++ zero_padded 2 (day d)) in *.
  cbn [zero_padded app]. unfold re_match, re_Y.
  rewrite !is_digit_digit_char, !digit_val_digit_char by apply mod10_digit.
  cbn [andb flat_map lit]. rewrite Z.eqb_refl. cbn [flat_map app map].
  rewrite Hmd. cbn [map app].
  replace (_ * 1000 + _ * 100 + _ * 10 + _) with (year d)
    by (rewrite (four_digits (year d)) at 1; lia).
  unfold date_new. unfold valid_date in Hv. rewrite Hv. now destruct d.
Qed.

Lemma iso_date_string_isoformat (d : date) :
  valid_date d = true -> iso_date_string (isoformat d) = true.
Proof.
  intros Hv. unfold iso_date_string. rewrite strptime_isoformat by assumption.
  apply String.eqb_refl.
Qed.

(** Logging under a zero-padded ISO text keeps the store well-formed; the
    [isoformat()] of a date, which [main] uses when no [--date] is given, is
    such a text. *)
Lemma log_weight_wf (d : string) (w : Q) (db : database) :
  iso_date_string d = true -> store_wf db -> store_wf (log_weight d w db).
Proof.
  intros Hd [Hpk Hiso]. split.
  - now apply log_weight_primary_key.
  - rewrite Forall_forall in *. intros r Hr. simpl in Hr.
    apply insert_or_replace_In in Hr. destruct Hr as [[Hr _]| ->].
    + now apply Hiso.
    + exact Hd.
Qed.

Lemma log_weight_isoformat_wf (d : date) (w : Q) (db : database) :
  valid_date d = true -> store_wf db -> store_wf (log_weight (isoformat d) w db).
Proof.
  intros Hv. now apply log_weight_wf, iso_date_string_isoformat.
Qed.

(** On a well-formed store, logging a date twice leaves one measurement for
    that calendar day, the last one. *)
Lemma measurement_after_log (d : string) (x : date) (v1 v2 w : Q)
  (db : database) :
  store_wf db -> iso_date_string d = true -> strptime d = Ok x ->
  measurement (log_weight d v2 (log_weight d v1 db)) x w <-> w = v2.
Proof.
  intros Hwf Hd Hx. unfold measurement. split.
  - intros [k [Hin Hk]].
    assert (Hwf' : store_wf (log_weight d v2 (log_weight d v1 db)))
      by (now repeat apply log_weight_wf).
    destruct Hwf' as [_ Hiso]. rewrite Forall_forall in Hiso.
    pose proof (Hiso _ Hin) as Hki. simpl in Hki.
    apply iso_date_string_inv in Hki, Hd.
    destruct Hki as [x1 [P1 [I1 _]]], Hd as [x2 [P2 [I2 _]]].
    assert (k = d) by congruence. subst k.
    simpl in Hin. apply insert_or_replace_In in Hin.
    destruct Hin as [[_ Hne]|E]; [now elim Hne|congruence].
  - intros ->. exists d. split; [|exact Hx].
    simpl. apply insert_or_replace_In. now right.
Qed.

Lemma empty_db_wf : store_wf empty_db.
Proof. split; [constructor|constructor]. Qed.

(** *** The [from:] tag *)

Lemma append_char_assoc (cur : string) (c : ascii) (s : string) :
  ((cur ++ String c "") ++ s)%string = (cur ++ String c s)%string.
Proof. induction cur as [|a cur IH]; simpl; [reflexivity|now rewrite IH]. Qed.

Lemma append_empty_r (s : string) : (s ++ "")%string = s.
Proof. induction s as [|a s IH]; simpl; [reflexivity|now rewrite IH]. Qed.

Lemma split_colon_aux_colon_free (s : string) :
  forall cur, Forall not_colon (list_ascii_of_string s) ->
              split_colon_aux cur s = [(cur ++ s)%string].
Proof.
  induction s as [|c s IH]; intros cur H; simpl.
  - now rewrite append_empty_r.
  - simpl in H. inversion H as [|? ? Hc Hs]; subst.
    apply Ascii.eqb_neq in Hc. rewrite Hc, IH by assumption.
    now rewrite append_char_assoc.
Qed.

Lemma start_of_range_from (s : string) (d today : date) :
  strptime s = Ok d ->
  start_of_range ("from:" ++ s) today = Ok (Some d).
Proof.
  intros Hp. unfold start_of_range.
  assert (Hs : split_colon ("from:" ++ s) = ["from"%string; s]).
  { unfold split_colon. cbn.
    rewrite split_colon_aux_colon_free by (eapply strptime_colon_free; eauto).
    reflexivity. }
  rewrite Hs.
  assert (Hpre : prefix "from:" ("from:" ++ s) = true) by (cbn; now destruct s).
  rewrite Hpre. cbn. now rewrite Hp.
Qed.

(** ** Queries on a well-formed store *)

Lemma combine_In_rows (rows : list (string * Q)) (dates : list date) :
  Forall2 row_date rows dates ->
  forall d w, In (d, w) (combine dates (map snd rows)) <->
              exists k, In (k, w) rows /\ strptime k = Ok d.
Proof.
  induction 1 as [|[k0 w0] d0 rows dates Hp _ IH]; intros d w; simpl.
  - split; [tauto|]. intros [k [[] _]].
  - rewrite IH. destruct Hp as [Hp _]. simpl in Hp. split.
    + intros [E|[k [Hin Hk]]].
      * injection E as <- <-. eauto.
      * eauto.
    + intros [k [[E|Hin] Hk]].
      * injection E as <- <-. left. congruence.
      * right. eauto.
Qed.

Lemma rows_dates_lt (r : string * Q) (d : date)
  (rows : list (string * Q)) (dates : list date) :
  row_date r d -> Forall2 row_date rows dates ->
  Forall (key_le r) rows -> ~ In (fst r) (map fst rows) ->
  Forall (date_lt d) dates.
Proof.
  intros [_ [Hi Hv]]. induction 1 as [|r' d' rows dates Hp _ IH];
    intros Hall Hnin; constructor.
  - inversion Hall as [|? ? Hle _]; subst.
    destruct Hp as [_ [Hi' Hv']].
    unfold date_lt. rewrite <- isoformat_compare, Hi, Hi' by assumption.
    unfold key_le, String.leb in Hle.
    destruct (String.compare (fst r) (fst r')) eqn:E;
      [|reflexivity|discriminate].
    apply String.compare_eq_iff in E. exfalso. apply Hnin. simpl. auto.
  - inversion Hall; subst. apply IH; auto.
    intros Hin. apply Hnin. simpl. auto.
Qed.

Lemma rows_dates_sorted (rows : list (string * Q)) (dates : list date) :
  Forall2 row_date rows dates ->
  StronglySorted key_le rows -> NoDup (map fst rows) ->
  StronglySorted date_lt dates.
Proof.
  induction 1 as [|r d rows dates Hp Hf IH]; intros Hs Hnd;
    [constructor|].
  inversion Hs; subst. simpl in Hnd. inversion Hnd; subst.
  constructor; auto.
  eapply rows_dates_lt; eauto.
Qed.

Lemma fetchall_primary_key (start : option string) (db : database) :
  primary_key (weights db) -> NoDup (map fst (fetchall start db)).
Proof.
  intros H. destruct start as [p|]; simpl.
  - now apply order_by_key_NoDup, where_key_ge_NoDup.
  - now apply order_by_key_NoDup.
Qed.

Lemma fetchall_sorted (start : option string) (db : database) :
  StronglySorted key_le (fetchall start db).
Proof. destruct start; apply order_by_key_sorted. Qed.

Lemma wf_rows_dates (rows : list (string * Q)) :
  Forall (fun r => iso_date_string (fst r) = true) rows ->
  exists dates,
    comprehension (fun r => strptime (fst r)) rows = Ok dates /\
    Forall2 row_date rows dates.
Proof.
  induction 1 as [|r rows Hr _ [dates [Hc Hf]]]; simpl.
  - exists []. split; [reflexivity|constructor].
  - apply iso_date_string_inv in Hr. destruct Hr as [d [Hp [Hi Hv]]].
    exists (d :: dates). rewrite Hp, Hc. simpl. split; [reflexivity|].
    constructor; [|exact Hf]. now repeat split.
Qed.

Lemma fetchall_wf (start : option string) (db : database) :
  store_wf db ->
  Forall (fun r => iso_date_string (fst r) = true) (fetchall start db).
Proof.
  intros [_ Hwf]. rewrite Forall_forall in *.
  intros r Hr. apply Hwf. now apply fetchall_In in Hr.
Qed.

Lemma from_start_leb (start_date : option date) (k : string) (d : date) :
  valid_start start_date ->
  isoformat d = k -> valid_date d = true ->
  match option_map isoformat start_date with
  | Some p => String.leb p k = true
  | None => True
  end <-> from_start start_date d.
Proof.
  intros Hs Hi Hv. destruct start_date as [s|]; simpl in *; [|tauto].
  now rewrite <- Hi, isoformat_leb.
Qed.

(** The query on a store that meets the data model. *)
Lemma get_weights_wf (start_date : option date) (db : database) :
  store_wf db -> valid_start start_date -> query_spec start_date db.
Proof.
  intros Hwf Hvs. unfold query_spec, get_weights.
  set (results := fetchall (option_map isoformat start_date) db).
  destruct (wf_rows_dates results) as [dates [Hc Hf]];
    [now apply fetchall_wf|].
  exists dates, (map snd results). rewrite Hc. simpl.
  assert (Hlen : List.length dates = List.length (map snd results)).
  { rewrite length_map. symmetry. eapply Forall2_length; eauto. }
  assert (Hiff : forall d w, In (d, w) (combine dates (map snd results)) <->
                             measurement db d w /\ from_start start_date d).
  { intros d w. rewrite (combine_In_rows _ _ Hf). unfold measurement. split.
    - intros [k [Hin Hk]]. apply fetchall_In in Hin. destruct Hin as [Hin Hge].
      split; [eauto|].
      destruct Hwf as [_ Hwf]. rewrite Forall_forall in Hwf.
      specialize (Hwf _ Hin). apply iso_date_string_inv in Hwf.
      destruct Hwf as [d' [Hp [Hi Hv]]]. simpl in *.
      assert (d' = d) by congruence. subst d'.
      now apply (from_start_leb start_date k d).
    - intros [[k [Hin Hk]] Hfrom]. exists k. split; [|exact Hk].
      apply fetchall_In. split; [exact Hin|].
      destruct Hwf as [_ Hwf]. rewrite Forall_forall in Hwf.
      specialize (Hwf _ Hin). apply iso_date_string_inv in Hwf.
      destruct Hwf as [d' [Hp [Hi Hv]]]. simpl in *.
      assert (d' = d) by congruence. subst d'.
      now apply (from_start_leb start_date k d). }
  split; [reflexivity|]. split; [exact Hlen|]. split; [exact Hiff|].
  split.
  - apply (rows_dates_sorted results); auto.
    + apply fetchall_sorted.
    + apply fetchall_primary_key, Hwf.
  - intros Hnone.
    destruct dates as [|d dates], (map snd results) as [|w ws];
      try discriminate; [now split|].
    exfalso. destruct (proj1 (Hiff d w) (or_introl eq_refl)) as [Hm Hs].
    eapply Hnone; eauto.
Qed.

(** * The claims *)

(** ** C1: upsert *)

(** C1. Logging [(d, v1)] and then [(d, v2)] leaves exactly one row for the
    date [d] in the table, the row [(d, v2)]; the rows of every other date
    are the ones that were there before. *)
Theorem log_weight_twice_same_date (d : string) (v1 v2 : Q) (db : database) :
  let db' := log_weight d v2 (log_weight d v1 db) in
  rows_of d (weights db') = [(d, v2)] /\
  (forall d', d' <> d ->
     rows_of d' (weights db') = rows_of d' (weights db)).
Proof.
  simpl. split.
  - apply rows_of_insert_same.
  - intros d' Hne. now rewrite !rows_of_insert_other.
Qed.

(** ** C2: what a query returns *)

(** C2, as stated, fails on a store whose date texts are not all
    zero-padded: the rows come back in the order of their texts, here the
    10th of January before the 5th. *)
Lemma query_spec_fails_unpadded :
  primary_key (weights unpadded_db) /\ ~ query_spec None unpadded_db.
Proof.
  split.
  - unfold primary_key. simpl. repeat constructor; simpl; intuition discriminate.
  - intros [dates [ws [Hq [_ [_ [Hs _]]]]]].
    vm_compute in Hq. injection Hq as <- <-.
    inversion Hs as [|? ? _ Hall]; subst.
    inversion Hall as [|? ? Hlt _]; subst.
    discriminate Hlt.
Qed.

(** C2, amended. On a store that meets the data model (one row per date
    text, every date text a zero-padded ISO date) and for every start date,
    the query returns: exactly the stored measurements whose date is on or
    after the start date (all of them without a start date), in strictly
    ascending order of date, and two empty lists, not an error, when no
    measurement qualifies. *)
Theorem get_weights_on_well_formed_store (start_date : option date)
  (db : database) :
  store_wf db -> valid_start start_date -> query_spec start_date db.
Proof. apply get_weights_wf. Qed.

Lemma get_weights_on_well_formed_store_witness :
  query_spec (Some (mkdate 2024 1 5)) scenario_db.
Proof.
  apply get_weights_on_well_formed_store.
  - split.
    + unfold primary_key. simpl.
      repeat constructor; simpl; intuition discriminate.
    + repeat constructor.
  - reflexivity.
Defined.

(** ** C3: the start date of a range *)

Open Scope string_scope.

Lemma start_of_range_window (today : date) (tag : string) (n : Z) :
  In (tag, n) [("1m", 30); ("6m", 180); ("1y", 365)] ->
  start_of_range tag today = d <- date_sub_days today n ;; Ok (Some d).
Proof.
  intros [E|[E|[E|[]]]]; injection E as <- <-; reflexivity.
Qed.

Lemma start_of_range_other (today : date) (tag : string) :
  prefix "from:" tag = false -> tag <> "1m" -> tag <> "6m" -> tag <> "1y" ->
  start_of_range tag today = Ok None.
Proof.
  intros Hp H1 H6 Hy. unfold start_of_range. rewrite Hp.
  apply String.eqb_neq in H1, H6, Hy. now rewrite H1, H6, Hy.
Qed.

Lemma date_sub_days_overflow (today : date) (n : Z) :
  toordinal today <= n -> date_sub_days today n = Raise OverflowError.
Proof.
  intros H. unfold date_sub_days, date_add_days.
  destruct (Z.ltb_spec 0 (toordinal today + - n)); [lia|reflexivity].
Qed.

(** C3. For every [today]: the tags [1m], [6m] and [1y] give the date 30,
    180 and 365 days before [today] (the subtraction raises [OverflowError]
    when that day is before the first day of the calendar); a tag [from:]
    followed by a date text gives that date; [all] and every tag that is
    none of these give no start date; a [from_date], when it is not the
    empty string, decides the result whatever the tag is, and gives its date
    when it is a date text.  The tag [1m] on 2024-03-31 gives 2024-03-01. *)
Theorem resolve_start_date_cases (today : date) :
  valid_date today = true ->
  (forall tag n,
     In (tag, n) [("1m", 30); ("6m", 180); ("1y", 365)] ->
     n < toordinal today ->
     exists d, resolve_start_date None tag today = Ok (Some d)
               /\ valid_date d = true
               /\ toordinal d = toordinal today - n)
  /\ (forall tag n,
        In (tag, n) [("1m", 30); ("6m", 180); ("1y", 365)] ->
        toordinal today <= n ->
        resolve_start_date None tag today = Raise OverflowError)
  /\ (forall s d, strptime s = Ok d ->
                  resolve_start_date None ("from:" ++ s) today = Ok (Some d))
  /\ resolve_start_date None "all" today = Ok None
  /\ (forall tag, prefix "from:" tag = false ->
                  tag <> "1m" -> tag <> "6m" -> tag <> "1y" ->
                  resolve_start_date None tag today = Ok None)
  /\ (forall s tag, s <> "" ->
                    resolve_start_date (Some s) tag today
                    = d <- strptime s ;; Ok (Some d))
  /\ (forall s d tag, strptime s = Ok d ->
                      resolve_start_date (Some s) tag today = Ok (Some d))
  /\ resolve_start_date None "1m" (mkdate 2024 3 31)
     = Ok (Some (mkdate 2024 3 1)).
Proof.
  intros Hv.
  split; [|split; [|split; [|split; [|split; [|split; [|split]]]]]].
  - intros tag n Hin Hn. simpl resolve_start_date.
    rewrite (start_of_range_window today tag n Hin).
    destruct (date_sub_days_correct today n Hv) as [d [Hd [Hvd Ho]]].
    { destruct Hin as [E|[E|[E|[]]]]; injection E as <- <-; lia. }
    exists d. rewrite Hd. auto.
  - intros tag n Hin Hn. simpl resolve_start_date.
    rewrite (start_of_range_window today tag n Hin).
    now rewrite date_sub_days_overflow.
  - intros s d Hp. now apply start_of_range_from.
  - reflexivity.
  - intros tag Hp H1 H6 Hy. now apply start_of_range_other.
  - intros s tag Hs. simpl. apply String.eqb_neq in Hs. now rewrite Hs.
  - intros s d tag Hp. simpl.
    rewrite (strptime_nonempty s d Hp), Hp. reflexivity.
  - reflexivity.
Qed.

Lemma resolve_start_date_cases_witness :
  (exists d, resolve_start_date None "1m" (mkdate 2024 3 31) = Ok (Some d)
             /\ valid_date d = true
             /\ toordinal d = toordinal (mkdate 2024 3 31) - 30)
  /\ resolve_start_date None "1y" (mkdate 1 3 31) = Raise OverflowError
  /\ resolve_start_date None "from:2023-01-01" (mkdate 2024 3 31)
     = Ok (Some (mkdate 2023 1 1))
  /\ resolve_start_date None "weekly" (mkdate 2024 3 31) = Ok None
  /\ resolve_start_date (Some "2022-06-15") "1m" (mkdate 2024 3 31)
     = Ok (Some (mkdate 2022 6 15)).
Proof.
  split; [|split; [|split; [|split]]].
  - apply (proj1 (resolve_start_date_cases (mkdate 2024 3 31) eq_refl)
             "1m" 30).
    + simpl. auto.
    + reflexivity.
  - apply (proj1 (proj2 (resolve_start_date_cases (mkdate 1 3 31) eq_refl))
             "1y" 365).
    + simpl. auto.
    + vm_compute. discriminate.
  - apply (proj1 (proj2 (proj2
             (resolve_start_date_cases (mkdate 2024 3 31) eq_refl)))
             "2023-01-01" (mkdate 2023 1 1)).
    reflexivity.
  - apply (proj1 (proj2 (proj2 (proj2 (proj2
             (resolve_start_date_cases (mkdate 2024 3 31) eq_refl)))))
             "weekly"); [reflexivity | discriminate ..].
  - apply (proj1 (proj2 (proj2 (proj2 (proj2 (proj2 (proj2
             (resolve_start_date_cases (mkdate 2024 3 31) eq_refl)))))))
             "2022-06-15" (mkdate 2022 6 15) "1m").
    reflexivity.
Defined.

(** The two stored-default examples of the range resolution. *)
Example main_range_stored_default (today : date) :
  let db := set_preference "default_range" "from:2023-01-01" empty_db in
  main_range None None false today db = Ok (Some (mkdate 2023 1 1), db).
Proof. reflexivity. Qed.

Example main_range_persisted_from_date (today : date) :
  exists db,
    main_range None (Some "2022-06-15") true today empty_db
    = Ok (Some (mkdate 2022 6 15), db)
    /\ main_range None None false today db
       = Ok (Some (mkdate 2022 6 15), db).
Proof. eexists. split; reflexivity. Qed.

Close Scope string_scope.

(** ** C4: an earlier start date returns a superset *)

Lemma fetchall_monotone (d1 d2 : date) (db : database) :
  valid_date d1 = true -> valid_date d2 = true -> date_leb d1 d2 = true ->
  incl (fetchall (Some (isoformat d2)) db)
       (fetchall (Some (isoformat d1)) db).
Proof.
  intros V1 V2 Hle r Hr.
  apply fetchall_In in Hr. destruct Hr as [Hin Hge].
  apply fetchall_In. split; [exact Hin|].
  eapply string_leb_trans; [|exact Hge].
  now rewrite isoformat_leb.
Qed.

(** C4. For start dates [d1 <= d2] and any table: the rows selected from
    [d2] are among the rows selected from [d1], and when the query from
    [d1] returns, the query from [d2] returns too and every date it returns
    is a date returned from [d1]. *)
Theorem get_weights_monotone (d1 d2 : date) (db : database) :
  valid_date d1 = true -> valid_date d2 = true -> date_leb d1 d2 = true ->
  incl (fetchall (Some (isoformat d2)) db)
       (fetchall (Some (isoformat d1)) db) /\
  forall dates1 ws1,
    get_weights (Some d1) db = Ok (dates1, ws1) ->
    exists dates2 ws2,
      get_weights (Some d2) db = Ok (dates2, ws2) /\ incl dates2 dates1.
Proof.
  intros V1 V2 Hle.
  pose proof (fetchall_monotone d1 d2 db V1 V2 Hle) as Hincl.
  split; [exact Hincl|].
  unfold get_weights. simpl option_map.
  set (rows1 := fetchall (Some (isoformat d1)) db) in *.
  set (rows2 := fetchall (Some (isoformat d2)) db) in *.
  intros dates1 ws1 H1.
  destruct (comprehension (fun r => strptime (fst r)) rows1)
    as [ds1|e] eqn:Hc1; simpl in H1; [|discriminate].
  injection H1 as <- <-.
  apply comprehension_Ok in Hc1.
  destruct (comprehension_total (fun r => strptime (fst r)) rows2)
    as [ds2 Hc2].
  { intros r Hr. apply Hincl in Hr.
    destruct (Forall2_In_l _ _ _ Hc1 r Hr) as [d [_ Hd]]. eauto. }
  exists ds2, (map snd rows2). rewrite Hc2. simpl. split; [reflexivity|].
  apply comprehension_Ok in Hc2.
  intros d Hd.
  destruct (Forall2_In_r _ _ _ Hc2 d Hd) as [r [Hr Hp]].
  apply Hincl in Hr.
  destruct (Forall2_In_l _ _ _ Hc1 r Hr) as [d' [Hd' Hp']].
  congruence.
Qed.

Lemma get_weights_monotone_witness :
  let db := log_weight "2024-02-01" 179 (log_weight "2024-01-01" 180 empty_db)
  in
  exists dates2 ws2,
    get_weights (Some (mkdate 2024 1 15)) db = Ok (dates2, ws2) /\
    incl dates2 [mkdate 2024 1 1; mkdate 2024 2 1].
Proof.
  intros db.
  refine (proj2 (get_weights_monotone (mkdate 2023 12 1) (mkdate 2024 1 15) db
                   eq_refl eq_refl eq_refl) _ [180%Q; 179%Q] _).
  reflexivity.
Defined.

(** ** C5: the order of ISO texts is the order of dates *)

(** C5. For two zero-padded ISO date texts, bytewise comparison of the texts
    gives the result of comparing the dates they parse to, as date objects
    and as day numbers; so the filter [date >= ?] of the storage layer
    selects by date. *)
Theorem iso_text_order_is_date_order (s1 s2 : string) (d1 d2 : date) :
  iso_date_string s1 = true -> iso_date_string s2 = true ->
  strptime s1 = Ok d1 -> strptime s2 = Ok d2 ->
  String.compare s1 s2 = date_compare d1 d2 /\
  String.compare s1 s2 = (toordinal d1 ?= toordinal d2) /\
  String.leb s2 s1 = date_leb d2 d1.
Proof.
  intros H1 H2 P1 P2.
  apply iso_date_string_inv in H1, H2.
  destruct H1 as [d1' [P1' [I1 V1]]], H2 as [d2' [P2' [I2 V2]]].
  assert (d1' = d1) by congruence. assert (d2' = d2) by congruence.
  subst d1' d2'. rewrite <- I1, <- I2.
  rewrite <- date_compare_toordinal by assumption.
  repeat split; [now apply isoformat_compare .. | now apply isoformat_leb].
Qed.

Lemma iso_text_order_is_date_order_witness :
  String.compare "2023-12-31" "2024-01-01"
    = date_compare (mkdate 2023 12 31) (mkdate 2024 1 1) /\
  String.compare "2023-12-31" "2024-01-01"
    = (toordinal (mkdate 2023 12 31) ?= toordinal (mkdate 2024 1 1)) /\
  String.leb "2024-01-01" "2023-12-31"
    = date_leb (mkdate 2024 1 1) (mkdate 2023 12 31).
Proof.
  apply (iso_text_order_is_date_order "2023-12-31" "2024-01-01");
    reflexivity.
Defined.

(** ** C6: the trend of a single point *)

Open Scope Q_scope.

(** C6. On a series of one measurement [(d, v)] the fit has slope [0] and
    its fitted value at [d] is [v]. *)
Theorem generate_graph_single_point (d : date) (v : Q) :
  exists t fitted,
    generate_graph [d] [v] = Ok t /\
    slope t = 0 /\ trend_line t = [fitted] /\ fitted == v.
Proof.
  unfold generate_graph, fit. cbn [map List.length Nat.eqb negb bind].
  set (x := inject_Z (toordinal d)).
  assert (Hc : lstsq [x - mean [x]] [v - mean [v]] = 0).
  { unfold lstsq. destruct (Qeq_bool _ 0) eqn:E; [reflexivity|].
    apply Qeq_bool_neq in E. exfalso. apply E.
    unfold dot, mean, sumQ. cbn. field. }
  rewrite Hc. cbn [first_item last_item last bind predict map coef_
                   intercept_].
  eexists. eexists. split; [reflexivity|].
  cbn [slope trend_line]. repeat split.
  unfold mean, sumQ. cbn. field.
Qed.

Close Scope Q_scope.

(** ** C7: the end-to-end scenario *)

Open Scope Q_scope.

Lemma scenario_slope_exact :
  exists t, generate_graph scenario_dates scenario_weights = Ok t /\
            slope t == - (2 # 7).
Proof. eexists. split; [reflexivity|]. vm_compute. reflexivity. Qed.

(** The scenario as three runs of [main]: the third run draws the trend of
    the three measurements. *)
Example main_scenario (today : date) :
  let db1 := fst (main (log_args 180 "2024-01-01") [] today empty_db) in
  let db2 := fst (main (log_args 178 "2024-01-08") [] today db1) in
  exists t,
    main (log_args 176 "2024-01-15") [] today db2
    = (scenario_db, Ok (Graph t))
    /\ slope t == - (2 # 7) /\ total_change t == -4.
Proof.
  eexists. split; [reflexivity|]. split; vm_compute; reflexivity.
Qed.

(** C7, as stated, fails: the slope of the scenario is not within half a
    hundredth of -0.57. *)
Lemma scenario_slope_is_not_minus_057 : ~ scenario (- (57 # 100)).
Proof.
  intros [_ [t [Ht [_ [Habs _]]]]].
  vm_compute in Ht. injection Ht as <-.
  apply Qle_bool_iff in Habs. vm_compute in Habs. discriminate.
Qed.

(** C7, amended. After the three measurements are logged into an empty
    store, the query without a start date returns them in ascending order of
    date, and the trend has a negative slope, -2/7 pounds per day, which is
    -0.29 to two decimals, and a total change of -4. *)
Theorem scenario_end_to_end :
  scenario (- (29 # 100)) /\
  exists t, generate_graph scenario_dates scenario_weights = Ok t /\
            slope t == - (2 # 7) /\
            total_change t == last scenario_weights 0 - hd 0 scenario_weights.
Proof.
  split.
  - split; [reflexivity|]. eexists. split; [reflexivity|].
    split; [|split].
    + apply Qlt_alt. vm_compute. reflexivity.
    + apply Qle_bool_iff. vm_compute. reflexivity.
    + vm_compute. reflexivity.
  - eexists. split; [reflexivity|]. split; vm_compute; reflexivity.
Qed.

Close Scope Q_scope.

(** ** C8: logging does not validate the date *)






(** ** C9: the trend of an empty series *)

(** C9. On an empty series the trend computation raises [ValueError]: the
    fit refuses an input of zero samples. *)
Theorem generate_graph_empty_series (ws : list Q) :
  generate_graph [] ws = Raise ValueError.
Proof. reflexivity. Qed.

(** ** C10: the two sequences of a query are parallel *)

(** C10. Whatever the table holds and whatever the start date is, a query
    that returns gives two lists of the same length, and the value at index
    [i] is the weight of the row whose date text parses to the date at index
    [i].  The only other outcome is [ValueError], raised when the text of a
    stored date does not parse. *)
Theorem get_weights_parallel (start_date : option date) (db : database) :
  match get_weights start_date db with
  | Ok (dates, ws) =>
      List.length dates = List.length ws /\
      forall i d w,
        nth_error dates i = Some d -> nth_error ws i = Some w ->
        exists k,
          nth_error (fetchall (option_map isoformat start_date) db) i
            = Some (k, w)
          /\ In (k, w) (weights db) /\ strptime k = Ok d
  | Raise e =>
      e = ValueError /\
      exists r, In r (weights db) /\ strptime (fst r) = Raise ValueError
  end.
Proof.
  unfold get_weights.
  set (results := fetchall (option_map isoformat start_date) db).
  destruct (comprehension (fun r => strptime (fst r)) results)
    as [dates|e] eqn:Hc; simpl.
  - apply comprehension_Ok in Hc. split.
    + rewrite length_map. symmetry. eapply Forall2_length; eauto.
    + intros i d w Hd Hw.
      destruct (Forall2_nth_error _ _ _ Hc i d Hd) as [[k w'] [Hr Hk]].
      rewrite nth_error_map, Hr in Hw. simpl in Hw. injection Hw as <-.
      exists k. repeat split; auto.
      apply nth_error_In in Hr. now apply fetchall_In in Hr.
  - apply comprehension_Raise in Hc. destruct Hc as [r [Hin Hr]].
    pose proof (strptime_Raise _ _ Hr). subst e. split; [reflexivity|].
    exists r. split; [|exact Hr]. now apply fetchall_In in Hin.
Qed.

(** * Further properties of the program *)

(** ** The preference store *)

(** *** Tables: lookup after insert *)

Section Tables.

Context {V : Type}.

Lemma select_one_rows_of (k : string) (t : table V) :
  select_one k t = match rows_of k t with r :: _ => Some (snd r) | [] => None end.
Proof. reflexivity. Qed.

Lemma select_one_insert_same (k : string) (v : V) (t : table V) :
  select_one k (insert_or_replace k v t) = Some v.
Proof.
  rewrite select_one_rows_of, rows_of_insert_same. reflexivity.
Qed.

Lemma select_one_insert_other (k k' : string) (v : V) (t : table V) :
  k' <> k -> select_one k' (insert_or_replace k v t) = select_one k' t.
Proof.
  intros H. now rewrite !select_one_rows_of, rows_of_insert_other.
Qed.

Lemma rows_of_absent (k : string) (t : table V) :
  ~ In k (map fst t) -> rows_of k t = [].
Proof.
  unfold rows_of. induction t as [|r t IH]; simpl; intros H; [reflexivity|].
  destruct (String.eqb_spec (fst r) k) as [E|E]; [tauto|].
  apply IH. tauto.
Qed.

End Tables.

(** X1. A preference that was set is what [get_preference] returns,
    whatever the default and whatever was stored before; setting the key again
    replaces the value and leaves one row for the key. *)
Theorem get_preference_after_set (key value value0 default : string)
  (db : database) :
  get_preference key default (set_preference key value db) = value /\
  get_preference key default
    (set_preference key value (set_preference key value0 db)) = value /\
  rows_of key (preferences (set_preference key value
                              (set_preference key value0 db)))
  = [(key, value)].
Proof.
  unfold get_preference, set_preference. simpl.
  rewrite !select_one_insert_same, rows_of_insert_same. auto.
Qed.

(** X2. For a key that has no row, [get_preference] returns the default. *)
Theorem get_preference_missing_key (key default : string) (db : database) :
  ~ In key (map fst (preferences db)) ->
  get_preference key default db = default.
Proof.
  intros H. unfold get_preference.
  rewrite select_one_rows_of, rows_of_absent by assumption. reflexivity.
Qed.

Lemma get_preference_missing_key_witness :
  get_preference "default_range" "all"
    (set_preference "theme" "dark" empty_db) = "all"%string.
Proof.
  apply get_preference_missing_key. simpl. intros [H|[]]. discriminate H.
Defined.

(** X3. Setting one key does not change what [get_preference] returns for
    another key. *)
Theorem get_preference_other_key (key key' value default : string)
  (db : database) :
  key' <> key ->
  get_preference key' default (set_preference key value db)
  = get_preference key' default db.
Proof.
  intros H. unfold get_preference, set_preference. simpl.
  now rewrite select_one_insert_other.
Qed.

Lemma get_preference_other_key_witness :
  get_preference "default_range" "all"
    (set_preference "theme" "dark"
       (set_preference "default_range" "6m" empty_db))
  = get_preference "default_range" "all"
      (set_preference "default_range" "6m" empty_db).
Proof. apply get_preference_other_key. discriminate. Defined.

(** ** The import of historical data *)

Section Items.

Context {V : Type}.

Lemma has_key_In (k : string) (items : list (string * V)) :
  has_key k items = true <-> In k (map fst items).
Proof.
  unfold has_key. rewrite existsb_exists. split.
  - intros [x [Hx E]]. apply String.eqb_eq in E. now subst.
  - intros H. exists k. split; [exact H|apply String.eqb_refl].
Qed.

Lemma filter_all (f : string * V -> bool) (l : list (string * V)) :
  (forall r, In r l -> f r = true) -> filter f l = l.
Proof.
  induction l as [|r l IH]; simpl; intros H; [reflexivity|].
  rewrite (H r) by auto. f_equal. apply IH. auto.
Qed.

Lemma filter_none (f : string * V -> bool) (l : list (string * V)) :
  (forall r, In r l -> f r = false) -> filter f l = [].
Proof.
  induction l as [|r l IH]; simpl; intros H; [reflexivity|].
  rewrite (H r) by auto. apply IH. auto.
Qed.

Lemma filter_twice (f g : string * V -> bool) (l : list (string * V)) :
  filter f (filter g l) = filter (fun r => g r && f r) l.
Proof.
  induction l as [|r l IH]; simpl; [reflexivity|].
  destruct (g r); simpl; [destruct (f r)|]; now rewrite IH.
Qed.

Lemma rows_of_items (items : list (string * V)) (k : string) (v : V) :
  NoDup (map fst items) -> In (k, v) items -> rows_of k items = [(k, v)].
Proof.
  unfold rows_of. induction items as [|[k0 v0] items IH]; simpl;
    intros Hnd Hin; [contradiction|].
  inversion Hnd as [|? ? Hnin Hnd']; subst.
  destruct Hin as [E|Hin].
  - injection E as -> ->. rewrite String.eqb_refl. f_equal.
    apply filter_none. intros [k' v'] Hr. simpl.
    apply String.eqb_neq. intros ->. apply Hnin.
    apply in_map_iff. now exists (k, v').
  - destruct (String.eqb_spec k0 k) as [->|Hne]; [|now apply IH].
    exfalso. apply Hnin. apply in_map_iff. now exists (k, v).
Qed.

End Items.

Lemma import_preferences (items : list (string * Q)) :
  forall db, preferences (import_historical_data items db) = preferences db.
Proof.
  unfold import_historical_data.
  induction items as [|i items IH]; intros db; simpl; [reflexivity|].
  now rewrite IH.
Qed.

(** The table after an import: the rows under other keys, then the
    imported rows. *)
Lemma import_weights (items : list (string * Q)) :
  NoDup (map fst items) ->
  forall db,
    weights (import_historical_data items db)
    = filter (fun r => negb (has_key (fst r) items)) (weights db) ++ items.
Proof.
  unfold import_historical_data.
  induction items as [|[k v] items IH]; intros Hnd db; simpl.
  - rewrite app_nil_r. symmetry. now apply filter_all.
  - inversion Hnd as [|? ? Hnin Hnd']; subst.
    rewrite IH by assumption. simpl. unfold insert_or_replace.
    rewrite filter_app, filter_twice. simpl.
    assert (Hk : has_key k items = false).
    { destruct (has_key k items) eqn:E; [|reflexivity].
      apply has_key_In in E. contradiction. }
    rewrite Hk. simpl. rewrite <- app_assoc. simpl. f_equal.
    apply filter_ext. intros r. unfold has_key. simpl.
    now rewrite negb_orb.
Qed.

(** X4. After the import of a dictionary, every imported date has exactly one
    row, with the imported value, whatever was stored under it before; the
    rows of the dates that are not in the dictionary are unchanged; imported
    into an empty store, the table is the dictionary. *)
Theorem import_historical_data_content (items : list (string * Q))
  (db : database) :
  NoDup (map fst items) ->
  (forall k v, In (k, v) items ->
     rows_of k (weights (import_historical_data items db)) = [(k, v)])
  /\ (forall k, ~ In k (map fst items) ->
        rows_of k (weights (import_historical_data items db))
        = rows_of k (weights db))
  /\ weights (import_historical_data items empty_db) = items.
Proof.
  intros Hnd. split; [|split].
  - intros k v Hin. rewrite import_weights by assumption.
    unfold rows_of at 1. rewrite filter_app, filter_twice.
    rewrite filter_none.
    + simpl. now apply rows_of_items.
    + intros r _. destruct (String.eqb_spec (fst r) k) as [->|];
        [|apply andb_false_r].
      assert (H : has_key k items = true).
      { apply has_key_In, in_map_iff. now exists (k, v). }
      now rewrite H.
  - intros k Hk. rewrite import_weights by assumption.
    unfold rows_of at 1. rewrite filter_app, filter_twice.
    fold (rows_of k items). rewrite (rows_of_absent k items Hk), app_nil_r.
    apply filter_ext_in. intros r _.
    destruct (String.eqb_spec (fst r) k) as [->|]; [|apply andb_false_r].
    destruct (has_key k items) eqn:E; [|reflexivity].
    apply has_key_In in E. contradiction.
  - rewrite import_weights by assumption. reflexivity.
Qed.

Lemma import_historical_data_content_witness :
  rows_of "2023-05-02"
    (weights (import_historical_data
                [("2023-05-01"%string, 190%Q); ("2023-05-02"%string, 189%Q)]
                (log_weight "2023-05-02" 200 empty_db)))
  = [("2023-05-02"%string, 189%Q)].
Proof.
  apply (proj1 (import_historical_data_content
                  [("2023-05-01"%string, 190%Q); ("2023-05-02"%string, 189%Q)]
                  (log_weight "2023-05-02" 200 empty_db)
                  ltac:(repeat constructor; simpl; intuition discriminate))).
  simpl. auto.
Defined.

(** X5. Importing the same dictionary a second time changes nothing. *)
Theorem import_historical_data_idempotent (items : list (string * Q))
  (db : database) :
  NoDup (map fst items) ->
  import_historical_data items (import_historical_data items db)
  = import_historical_data items db.
Proof.
  intros Hnd.
  assert (Hw : weights (import_historical_data items
                          (import_historical_data items db))
               = weights (import_historical_data items db)).
  { rewrite (import_weights items Hnd (import_historical_data items db)).
    rewrite (import_weights items Hnd db).
    rewrite filter_app, filter_twice.
    rewrite (filter_none _ items).
    - rewrite app_nil_r. f_equal. apply filter_ext. intros r.
      now destruct (has_key (fst r) items).
    - intros r Hr. apply negb_false_iff, has_key_In. now apply in_map. }
  pose proof (import_preferences items (import_historical_data items db)) as Hp.
  destruct (import_historical_data items (import_historical_data items db)),
    (import_historical_data items db). simpl in *. congruence.
Qed.

Lemma import_historical_data_idempotent_witness :
  let items := [("2023-05-01"%string, 190%Q); ("2023-05-02"%string, 189%Q)] in
  import_historical_data items (import_historical_data items empty_db)
  = import_historical_data items empty_db.
Proof.
  intros items. apply import_historical_data_idempotent.
  repeat constructor; simpl; intuition discriminate.
Defined.

(** X6. Every write keeps both tables free of duplicate keys: [log_weight],
    [import_historical_data] and [set_preference]. *)
Theorem writes_keep_primary_key (items : list (string * Q)) (d key value : string)
  (w : Q) (db : database) :
  primary_key (weights db) -> primary_key (preferences db) ->
  primary_key (weights (log_weight d w db))
  /\ primary_key (weights (import_historical_data items db))
  /\ primary_key (preferences (set_preference key value db))
  /\ primary_key (preferences (log_weight d w db))
  /\ primary_key (weights (set_preference key value db)).
Proof.
  intros Hw Hp. repeat split; try assumption.
  - now apply insert_or_replace_primary_key.
  - clear Hp. revert db Hw. unfold import_historical_data.
    induction items as [|i items IH]; intros db Hw; simpl; [exact Hw|].
    apply IH. now apply log_weight_primary_key.
  - now apply insert_or_replace_primary_key.
Qed.

Lemma writes_keep_primary_key_witness :
  let db := set_preference "default_range" "6m" scenario_db in
  let items := [("2024-01-08"%string, 177%Q); ("2024-02-01"%string, 175%Q);
                ("2024-02-01"%string, 174%Q)] in
  (select_one "2024-01-01" (weights db) = Some 180%Q
   /\ select_one "2024-01-08" (weights db) = Some 178%Q
   /\ select_one "default_range" (preferences db) = Some "6m"%string)
  /\ primary_key (weights (log_weight "2024-01-01" 181 db))
  /\ primary_key (weights (import_historical_data items db))
  /\ primary_key (preferences (set_preference "default_range" "1y" db))
  /\ primary_key (preferences (log_weight "2024-01-01" 181 db))
  /\ primary_key (weights (set_preference "default_range" "1y" db)).
Proof.
  intros db items. split; [repeat split|].
  apply (writes_keep_primary_key items "2024-01-01" "default_range" "1y" 181
           db).
  - repeat constructor; simpl; intuition discriminate.
  - repeat constructor; simpl; intuition discriminate.
Defined.

(** ** Logging and querying *)

(** X7. On a well-formed store, a weight logged under the ISO text of a date
    is read back by every query whose start date is not after that date: the
    date is returned, with the logged weight and no other. *)
Theorem log_weight_then_get_weights (d : date) (w : Q)
  (start_date : option date) (db : database) :
  store_wf db -> valid_date d = true ->
  valid_start start_date -> from_start start_date d ->
  exists dates ws,
    get_weights start_date (log_weight (isoformat d) w db) = Ok (dates, ws)
    /\ In (d, w) (combine dates ws)
    /\ forall w', In (d, w') (combine dates ws) -> w' = w.
Proof.
  intros Hwf Hv Hvs Hfrom.
  assert (Hwf' : store_wf (log_weight (isoformat d) w db))
    by now apply log_weight_isoformat_wf.
  destruct (get_weights_wf start_date _ Hwf' Hvs)
    as [dates [ws [Hq [_ [Hiff _]]]]].
  exists dates, ws. split; [exact Hq|]. split.
  - apply Hiff. split; [|exact Hfrom].
    exists (isoformat d). split; [|now apply strptime_isoformat].
    simpl. apply insert_or_replace_In. now right.
  - intros w' Hin. apply Hiff in Hin. destruct Hin as [[k [Hin Hk]] _].
    destruct Hwf' as [_ Hiso]. rewrite Forall_forall in Hiso.
    pose proof (Hiso _ Hin) as Hki. simpl in Hki.
    apply iso_date_string_inv in Hki. destruct Hki as [d' [P [I _]]].
    assert (d' = d) by congruence. subst d'.
    simpl in Hin. apply insert_or_replace_In in Hin.
    destruct Hin as [[_ Hne]|E]; [now elim Hne|congruence].
Qed.

Lemma log_weight_then_get_weights_witness :
  exists dates ws,
    get_weights (Some (mkdate 2024 1 1))
      (log_weight (isoformat (mkdate 2024 1 8)) 178
         (log_weight "2024-01-08" 200 empty_db)) = Ok (dates, ws)
    /\ In (mkdate 2024 1 8, 178%Q) (combine dates ws)
    /\ forall w', In (mkdate 2024 1 8, w') (combine dates ws) -> w' = 178%Q.
Proof.
  apply log_weight_then_get_weights.
  - split.
    + unfold primary_key. simpl.
      repeat constructor; simpl; intuition discriminate.
    + repeat constructor.
  - reflexivity.
  - reflexivity.
  - reflexivity.
Defined.

(** X8. When every stored text is below the text of the start date, the query
    returns two empty lists; stored texts that do not parse raise nothing,
    since no row is read. *)
Theorem get_weights_beyond_last (start : date) (db : database) :
  (forall r, In r (weights db) ->
             String.leb (isoformat start) (fst r) = false) ->
  get_weights (Some start) db = Ok ([], []).
Proof.
  intros H. unfold get_weights, fetchall, where_key_ge. simpl.
  rewrite filter_none by assumption. reflexivity.
Qed.

Lemma get_weights_beyond_last_witness :
  get_weights (Some (mkdate 2024 6 1))
    (log_weight "1999-13-45" 1 (log_weight "2024-01-08" 178 empty_db))
  = Ok ([], []).
Proof.
  apply get_weights_beyond_last. simpl.
  intros r [<-|[<-|[]]]; reflexivity.
Defined.



(** X10. The store is keyed by the text, not by the day: two different texts
    of the same day, logged into an empty store, are two rows, and the query
    returns that day twice. *)
Theorem log_weight_two_texts_one_day (k1 k2 : string) (d : date)
  (w1 w2 : Q) :
  k1 <> k2 -> strptime k1 = Ok d -> strptime k2 = Ok d ->
  exists ws,
    get_weights None (log_weight k2 w2 (log_weight k1 w1 empty_db))
    = Ok ([d; d], ws)
    /\ Permutation ws [w1; w2].
Proof.
  intros Hne H1 H2. apply String.eqb_neq in Hne.
  unfold get_weights, log_weight, fetchall, insert_or_replace, empty_db.
  cbn [weights option_map filter app fst negb]. rewrite Hne.
  cbn [negb app order_by_key fold_right insert_row fst].
  destruct (String.leb k1 k2); cbn [comprehension fst map snd];
    rewrite H1, H2; cbn [bind].
  - exists [w1; w2]. split; [reflexivity|apply Permutation_refl].
  - exists [w2; w1]. split; [reflexivity|apply perm_swap].
Qed.

Lemma log_weight_two_texts_one_day_witness :
  exists ws,
    get_weights None
      (log_weight "2024-1-5" 181 (log_weight "2024-01-05" 180 empty_db))
    = Ok ([mkdate 2024 1 5; mkdate 2024 1 5], ws)
    /\ Permutation ws [180%Q; 181%Q].
Proof.
  apply log_weight_two_texts_one_day; [discriminate|reflexivity|reflexivity].
Defined.

(** ** The trend: when it is computed *)

Open Scope Q_scope.

Lemma last_nonempty (l : list Q) (q a b : Q) :
  last (q :: l) a = last (q :: l) b.
Proof.
  revert q. induction l as [|x l IH]; intros q; [reflexivity|].
  change (last (x :: l) a = last (x :: l) b). apply IH.
Qed.

Lemma generate_graph_Ok (dates : list date) (ws : list Q) :
  dates <> [] -> List.length dates = List.length ws ->
  exists t, generate_graph dates ws = Ok t
            /\ List.length (trend_line t) = List.length dates
            /\ total_change t = last ws 0 - hd 0 ws.
Proof.
  intros Hne Hlen.
  destruct dates as [|d dates]; [congruence|].
  destruct ws as [|w ws]; [discriminate|].
  apply Nat.eqb_eq in Hlen.
  unfold generate_graph, fit. rewrite !length_map, Hlen.
  cbn [List.length Nat.eqb negb bind first_item last_item].
  eexists. split; [reflexivity|]. cbn [trend_line total_change].
  unfold predict. rewrite !length_map. split; [reflexivity|].
  destruct ws as [|q ws]; [reflexivity|].
  cbn [hd]. change (last (w :: q :: ws) 0) with (last (q :: ws) 0).
  now rewrite (last_nonempty ws q w 0).
Qed.

(** X11. [generate_graph] raises [ValueError] when the series is empty or
    has not as many weights as dates; whenever it returns, the series is not
    empty and has as many weights as dates, the trend line has one value per
    date and the total change is the last weight minus the first.  In exact
    arithmetic, which is the arithmetic of the model, it returns in every
    other case; with floats the fit can still raise [ValueError] there,
    when the weights overflow. *)
Theorem generate_graph_returns_iff (dates : list date) (ws : list Q) :
  (dates = [] \/ List.length dates <> List.length ws ->
   generate_graph dates ws = Raise ValueError)
  /\ (forall t, generate_graph dates ws = Ok t ->
      dates <> [] /\ List.length dates = List.length ws
      /\ List.length (trend_line t) = List.length dates
      /\ total_change t = last ws 0 - hd 0 ws)
  /\ (dates <> [] /\ List.length dates = List.length ws ->
      exists t, generate_graph dates ws = Ok t).
Proof.
  assert (Hraise : dates = [] \/ List.length dates <> List.length ws ->
                   generate_graph dates ws = Raise ValueError).
  { unfold generate_graph, fit. rewrite !length_map.
    intros [->|Hlen]; [reflexivity|].
    destruct (List.length dates =? 0)%nat; [reflexivity|].
    apply Nat.eqb_neq in Hlen. now rewrite Hlen. }
  split; [exact Hraise|]. split.
  - intros t Ht.
    assert (Hne : dates <> []).
    { intros E. rewrite Hraise in Ht by now left. discriminate. }
    assert (Hlen : List.length dates = List.length ws).
    { destruct (Nat.eq_dec (List.length dates) (List.length ws)) as [E|E];
        [exact E|].
      rewrite Hraise in Ht by now right. discriminate. }
    destruct (generate_graph_Ok dates ws Hne Hlen) as [t' [Ht' [H1 H2]]].
    rewrite Ht in Ht'. injection Ht' as <-. auto.
  - intros [Hne Hlen].
    destruct (generate_graph_Ok dates ws Hne Hlen) as [t [Ht _]]. eauto.
Qed.

Lemma generate_graph_returns_iff_witness :
  generate_graph scenario_dates [180] = Raise ValueError
  /\ exists t, generate_graph scenario_dates scenario_weights = Ok t
               /\ List.length (trend_line t) = List.length scenario_dates
               /\ total_change t
                  = last scenario_weights 0 - hd 0 scenario_weights.
Proof.
  split.
  - apply (proj1 (generate_graph_returns_iff scenario_dates [180])).
    right. discriminate.
  - destruct (proj2 (proj2 (generate_graph_returns_iff scenario_dates
                              scenario_weights))) as [t Ht].
    + split; [discriminate|reflexivity].
    + exists t. split; [exact Ht|].
      apply (proj1 (proj2 (generate_graph_returns_iff scenario_dates
                             scenario_weights)) t Ht).
Defined.

Close Scope Q_scope.

Lemma query_result_can_be_fitted (start_date : option date)
  (db : database) (dates : list date) (ws : list Q) :
  get_weights start_date db = Ok (dates, ws) -> dates <> [] ->
  exists t, generate_graph dates ws = Ok t.
Proof.
  intros Hq Hne.
  assert (Hlen : List.length dates = List.length ws).
  { unfold get_weights in Hq.
    destruct (comprehension _ _) as [ds|e] eqn:Hc; simpl in Hq;
      [|discriminate].
    injection Hq as <- <-. apply comprehension_Ok in Hc.
    rewrite length_map. symmetry. eapply Forall2_length; eauto. }
  destruct (generate_graph_Ok dates ws Hne Hlen) as [t [Ht _]].
  eauto.
Qed.

(** X12. A query result that is not empty passes the checks that the fit
    and the total change make on the shape of the series, which is what the
    test of [main] before its call of [generate_graph] is for: it has as
    many weights as dates and at least one weight.  In exact arithmetic,
    which is the arithmetic of the model, [generate_graph] therefore returns
    on it; with floats the fit can still raise [ValueError], when the
    weights overflow. *)
Theorem get_weights_feeds_generate_graph (start_date : option date)
  (db : database) (dates : list date) (ws : list Q) :
  get_weights start_date db = Ok (dates, ws) -> dates <> [] ->
  List.length ws = List.length dates /\ ws <> []
  /\ exists t, generate_graph dates ws = Ok t.
Proof.
  intros Hq Hne.
  destruct (query_result_can_be_fitted start_date db dates ws Hq Hne)
    as [t Ht].
  assert (Hlen : List.length ws = List.length dates).
  { destruct (Nat.eq_dec (List.length dates) (List.length ws)) as [E|E];
      [now symmetry|].
    unfold generate_graph, fit in Ht. rewrite !length_map in Ht.
    apply Nat.eqb_neq in E. rewrite E in Ht.
    destruct (List.length dates =? 0)%nat; discriminate. }
  split; [exact Hlen|]. split; [|eauto].
  intros ->. destruct dates; [congruence|discriminate].
Qed.

Lemma get_weights_feeds_generate_graph_witness :
  List.length scenario_weights = List.length scenario_dates
  /\ scenario_weights <> []
  /\ exists t, generate_graph scenario_dates scenario_weights = Ok t.
Proof.
  apply (get_weights_feeds_generate_graph None scenario_db);
    [reflexivity|discriminate].
Defined.

(** ** The trend: the fitted line *)

Open Scope Q_scope.

Lemma samples_cons (x : Q) (l : list Q) : samples (x :: l) == 1 + samples l.
Proof.
  unfold samples. cbn [List.length]. rewrite Nat2Z.inj_succ.
  unfold Z.succ. rewrite inject_Z_plus. ring.
Qed.

Lemma samples_pos (x : Q) (l : list Q) : 0 < samples (x :: l).
Proof.
  unfold samples. cbn [List.length]. rewrite Nat2Z.inj_succ.
  change 0 with (inject_Z 0). rewrite <- Zlt_Qlt. lia.
Qed.

Lemma mean_samples (l : list Q) : l <> [] -> mean l * samples l == sumQ l.
Proof.
  intros H. destruct l as [|x l]; [congruence|].
  unfold mean. fold (samples (x :: l)).
  pose proof (samples_pos x l). field. lra.
Qed.

Lemma sumQ_affine (c i : Q) (X : list Q) :
  sumQ (map (fun x => x * c + i) X) == c * sumQ X + samples X * i.
Proof.
  induction X as [|x X IH].
  - unfold samples. simpl. ring.
  - rewrite samples_cons. cbn [map sumQ fold_right].
    fold (sumQ (map (fun x => x * c + i) X)). fold (sumQ X).
    rewrite IH. ring.
Qed.

Lemma fit_Ok (X y : list Q) (m : LinearRegression) :
  fit X y = Ok m ->
  X <> [] /\ List.length X = List.length y /\
  coef_ m = lstsq (map (fun x => x - mean X) X) (map (fun v => v - mean y) y)
  /\ intercept_ m = mean y - mean X * coef_ m.
Proof.
  unfold fit. destruct X as [|x X]; [discriminate|].
  destruct (List.length (x :: X) =? List.length y)%nat eqn:E;
    cbn [List.length Nat.eqb negb]; [|discriminate].
  intros H. injection H as <-. apply Nat.eqb_eq in E.
  repeat split; [discriminate|exact E].
Qed.

Lemma generate_graph_inv (dates : list date) (ws : list Q) (t : trend) :
  generate_graph dates ws = Ok t ->
  exists m,
    fit (map (fun d => inject_Z (toordinal d)) dates) ws = Ok m
    /\ trend_line t = predict m (map (fun d => inject_Z (toordinal d)) dates)
    /\ slope t = coef_ m.
Proof.
  unfold generate_graph.
  destruct (fit _ ws) as [m|e]; [|discriminate]. cbn [bind].
  destruct (last_item ws) as [wl|e]; [|discriminate]. cbn [bind].
  destruct (first_item ws) as [wf|e]; [|discriminate]. cbn [bind].
  intros H. injection H as <-. exists m. auto.
Qed.

(** X13. The fitted values sum to the sum of the weights: the residuals of the
    trend line cancel. *)
Theorem trend_line_sum (dates : list date) (ws : list Q) (t : trend) :
  generate_graph dates ws = Ok t ->
  sumQ (trend_line t) == sumQ ws.
Proof.
  intros H. apply generate_graph_inv in H.
  destruct H as [m [Hfit [-> _]]].
  apply fit_Ok in Hfit. destruct Hfit as [Hne [Hlen [_ Hi]]].
  set (X := map (fun d => inject_Z (toordinal d)) dates) in *.
  unfold predict. rewrite sumQ_affine, Hi.
  assert (Hy : ws <> []) by (destruct ws, X; simpl in *; congruence).
  rewrite <- (mean_samples X Hne), <- (mean_samples ws Hy).
  unfold samples. rewrite Hlen. ring.
Qed.

Lemma trend_line_sum_witness :
  exists t, generate_graph scenario_dates scenario_weights = Ok t
            /\ sumQ (trend_line t) == sumQ scenario_weights.
Proof.
  eexists. split; [reflexivity|].
  apply (trend_line_sum scenario_dates). reflexivity.
Defined.

Close Scope Q_scope.

(** ** The trend: data on a line *)

Open Scope Q_scope.

Lemma dot_cons (u v : Q) (U V : list Q) :
  dot (u :: U) (v :: V) = u * v + dot U V.
Proof. reflexivity. Qed.

Lemma dot_self_nonneg (U : list Q) : 0 <= dot U U.
Proof.
  induction U as [|u U IH]; [unfold dot; simpl; lra|].
  rewrite dot_cons. nra.
Qed.

Lemma dot_self_zero (U : list Q) :
  dot U U == 0 -> Forall (fun u => u == 0) U.
Proof.
  induction U as [|u U IH]; intros H; [constructor|].
  rewrite dot_cons in H. pose proof (dot_self_nonneg U).
  assert (Hu : u * u == 0) by nra.
  constructor.
  - apply Qmult_integral in Hu. tauto.
  - apply IH. nra.
Qed.

Lemma sumQ_on_line (a b : Q) (X Y : list Q) :
  Forall2 (on_line a b) X Y -> sumQ Y == a * sumQ X + samples X * b.
Proof.
  induction 1 as [|x y X Y Hxy _ IH].
  - unfold samples. simpl. ring.
  - rewrite samples_cons. cbn [sumQ fold_right].
    fold (sumQ X). fold (sumQ Y). rewrite IH. unfold on_line in Hxy.
    rewrite Hxy. ring.
Qed.

Lemma mean_on_line (a b : Q) (X Y : list Q) :
  X <> [] -> Forall2 (on_line a b) X Y -> mean Y == a * mean X + b.
Proof.
  intros Hne H. pose proof (sumQ_on_line a b X Y H) as Hs.
  pose proof (Forall2_length H) as Hlen.
  destruct X as [|x X]; [congruence|]. destruct Y as [|y Y]; [discriminate|].
  unfold mean. fold (samples (x :: X)). fold (samples (y :: Y)).
  assert (Hc : samples (y :: Y) == samples (x :: X))
    by (unfold samples; now rewrite Hlen).
  pose proof (samples_pos x X). rewrite Hc, Hs. field. lra.
Qed.

Lemma dot_centred_on_line (a b mx my : Q) (X Y : list Q) :
  my == a * mx + b -> Forall2 (on_line a b) X Y ->
  dot (map (fun x => x - mx) X) (map (fun v => v - my) Y)
  == a * dot (map (fun x => x - mx) X) (map (fun x => x - mx) X).
Proof.
  intros Hm. induction 1 as [|x y X Y Hxy _ IH].
  - unfold dot. simpl. ring.
  - cbn [map]. rewrite !dot_cons, IH. unfold on_line in Hxy.
    rewrite Hxy, Hm. ring.
Qed.

Lemma predict_on_line (a b c i : Q) (X Y : list Q) :
  c == a -> i == b -> Forall2 (on_line a b) X Y ->
  Forall2 Qeq (map (fun x => x * c + i) X) Y.
Proof.
  intros Hc Hi. induction 1 as [|x y X Y Hxy _ IH]; cbn [map]; constructor.
  - unfold on_line in Hxy. rewrite Hxy, Hc, Hi. ring.
  - exact IH.
Qed.

Lemma centred_not_all_zero (X : list Q) (m x1 x2 : Q) :
  In x1 X -> In x2 X -> ~ x1 == x2 ->
  ~ dot (map (fun x => x - m) X) (map (fun x => x - m) X) == 0.
Proof.
  intros H1 H2 Hne Hz. apply dot_self_zero in Hz.
  rewrite Forall_forall in Hz.
  assert (E1 : x1 - m == 0) by (apply Hz, in_map_iff; eauto).
  assert (E2 : x2 - m == 0) by (apply Hz, in_map_iff; eauto).
  apply Hne. lra.
Qed.

(** The fit of points that lie on a line is that line. *)
Lemma fit_on_line (a b : Q) (X Y : list Q) (x1 x2 : Q) :
  Forall2 (on_line a b) X Y -> In x1 X -> In x2 X -> ~ x1 == x2 ->
  exists m, fit X Y = Ok m /\ coef_ m == a /\ intercept_ m == b.
Proof.
  intros Hl H1 H2 Hne.
  assert (HX : X <> []) by (destruct X; [contradiction|discriminate]).
  pose proof (Forall2_length Hl) as Hlen.
  pose proof (mean_on_line a b X Y HX Hl) as Hm.
  pose proof (dot_centred_on_line a b (mean X) (mean Y) X Y Hm Hl) as Hd.
  pose proof (centred_not_all_zero X (mean X) x1 x2 H1 H2 Hne) as Hnz.
  unfold fit. destruct X as [|x X]; [congruence|].
  rewrite Hlen, Nat.eqb_refl.
  replace (List.length Y =? 0)%nat with false
    by (destruct Y; [discriminate|reflexivity]).
  cbn [negb]. eexists. split; [reflexivity|]. cbn [coef_ intercept_].
  set (xc := map (fun x0 => x0 - mean (x :: X)) (x :: X)) in *.
  set (yc := map (fun v => v - mean Y) Y) in *.
  assert (Hc : lstsq xc yc == a).
  { unfold lstsq. destruct (Qeq_bool (dot xc xc) 0) eqn:E.
    - apply Qeq_bool_iff in E. contradiction.
    - rewrite Hd. field. exact Hnz. }
  split; [exact Hc|]. rewrite Hc, Hm. ring.
Qed.

Lemma Forall2_ordinals (P : Q -> Q -> Prop) (dates : list date)
  (ws : list Q) :
  Forall2 (fun d w => P (inject_Z (toordinal d)) w) dates ws ->
  Forall2 P (map (fun d => inject_Z (toordinal d)) dates) ws.
Proof. induction 1; cbn [map]; constructor; auto. Qed.

Lemma generate_graph_on_line (a b : Q) (dates : list date) (ws : list Q)
  (d1 d2 : date) :
  Forall2 (fun d w => on_line a b (inject_Z (toordinal d)) w) dates ws ->
  In d1 dates -> In d2 dates -> toordinal d1 <> toordinal d2 ->
  exists t, generate_graph dates ws = Ok t
            /\ slope t == a /\ Forall2 Qeq (trend_line t) ws.
Proof.
  intros Hl H1 H2 Hne. apply Forall2_ordinals in Hl.
  set (X := map (fun d => inject_Z (toordinal d)) dates) in *.
  destruct (fit_on_line a b X ws (inject_Z (toordinal d1))
              (inject_Z (toordinal d2)) Hl) as [m [Hfit [Hc Hi]]].
  - apply in_map_iff. eauto.
  - apply in_map_iff. eauto.
  - intros E. apply Hne. unfold Qeq in E. simpl in E. lia.
  - unfold generate_graph. fold X. rewrite Hfit. cbn [bind].
    assert (Hws : ws <> []).
    { pose proof (Forall2_length Hl) as Hlen. unfold X in Hlen.
      rewrite length_map in Hlen.
      destruct dates; [contradiction|]. destruct ws; discriminate. }
    destruct ws as [|w ws]; [congruence|].
    cbn [last_item first_item bind].
    eexists. split; [reflexivity|]. cbn [slope trend_line].
    split; [exact Hc|]. unfold predict. now apply (predict_on_line a b).
Qed.

(** X14. When the weights lie on a line over the day numbers of at least two
    different days, the trend is that line: its slope is the slope of the
    line and every fitted value is the weight. *)
Theorem trend_of_linear_data (a b : Q) (dates : list date) (ws : list Q)
  (d1 d2 : date) :
  Forall2 (fun d w => w == a * inject_Z (toordinal d) + b) dates ws ->
  In d1 dates -> In d2 dates -> toordinal d1 <> toordinal d2 ->
  exists t, generate_graph dates ws = Ok t
            /\ slope t == a /\ Forall2 Qeq (trend_line t) ws.
Proof. apply generate_graph_on_line. Qed.

Lemma trend_of_linear_data_witness :
  exists t, generate_graph scenario_dates scenario_weights = Ok t
            /\ slope t == - (2 # 7)
            /\ Forall2 Qeq (trend_line t) scenario_weights.
Proof.
  apply (trend_of_linear_data (- (2 # 7)) (180 + (2 # 7) * 738886)
           scenario_dates scenario_weights (mkdate 2024 1 1) (mkdate 2024 1 8)).
  - repeat constructor; vm_compute; reflexivity.
  - simpl. auto.
  - simpl. auto.
  - discriminate.
Defined.

(** X15. For two measurements on different days the slope is the change of
    weight divided by the number of days between them, the trend line passes
    through both, and the total change is the difference of the weights. *)
Theorem trend_of_two_points (d1 d2 : date) (w1 w2 : Q) :
  toordinal d1 <> toordinal d2 ->
  exists t, generate_graph [d1; d2] [w1; w2] = Ok t
            /\ slope t
               == (w2 - w1) / inject_Z (toordinal d2 - toordinal d1)
            /\ Forall2 Qeq (trend_line t) [w1; w2]
            /\ total_change t == w2 - w1.
Proof.
  intros Hne.
  set (x1 := inject_Z (toordinal d1)). set (x2 := inject_Z (toordinal d2)).
  assert (Hx : ~ x2 - x1 == 0).
  { unfold x1, x2. intros E. apply Hne.
    unfold Qeq, Qminus, Qplus, Qopp in E. simpl in E. lia. }
  assert (Hd : inject_Z (toordinal d2 - toordinal d1) == x2 - x1).
  { unfold x1, x2, Z.sub. rewrite inject_Z_plus, inject_Z_opp. ring. }
  destruct (generate_graph_on_line ((w2 - w1) / (x2 - x1))
              (w1 - (w2 - w1) / (x2 - x1) * x1) [d1; d2] [w1; w2] d1 d2)
    as [t [Ht [Hs Hl]]].
  - constructor; [|constructor; [|constructor]]; unfold on_line;
      fold x1; fold x2; field; exact Hx.
  - simpl. auto.
  - simpl. auto.
  - exact Hne.
  - exists t. split; [exact Ht|]. split; [now rewrite Hs, Hd|].
    split; [exact Hl|].
    unfold generate_graph in Ht.
    destruct (fit _ _) as [m|e]; [|discriminate].
    cbn [bind last_item first_item last] in Ht. injection Ht as <-.
    cbn [total_change]. reflexivity.
Qed.

Lemma trend_of_two_points_witness :
  exists t, generate_graph [mkdate 2024 1 1; mkdate 2024 1 8] [180; 178] = Ok t
            /\ slope t
               == (178 - 180)
                  / inject_Z (toordinal (mkdate 2024 1 8)
                              - toordinal (mkdate 2024 1 1))
            /\ Forall2 Qeq (trend_line t) [180; 178]
            /\ total_change t == 178 - 180.
Proof. apply trend_of_two_points. discriminate. Defined.

Close Scope Q_scope.

(** ** The range: windows, the [from:] tag, the stored default *)

(** *** Dates by day number *)

Lemma date_leb_toordinal (a b : date) :
  valid_date a = true -> valid_date b = true ->
  date_leb a b = true <-> toordinal a <= toordinal b.
Proof.
  intros Ha Hb. unfold date_leb. rewrite date_compare_toordinal by assumption.
  destruct (Z.compare_spec (toordinal a) (toordinal b)); split;
    try lia; try reflexivity; discriminate.
Qed.

Lemma date_sub_days_Raise (today : date) (n : Z) (e : exn) :
  date_sub_days today n = Raise e -> e = OverflowError.
Proof.
  unfold date_sub_days, date_add_days, fromordinal.
  destruct (Z.ltb_spec 0 (toordinal today + - n)); cbn [andb];
    [|congruence].
  destruct (Z.leb_spec (toordinal today + - n) MAXORDINAL); [|congruence].
  destruct (ord2ymd _) as [[y m] d] eqn:E.
  apply ord2ymd_correct in E; [|lia]. destruct E as [Hc _].
  unfold date_new. rewrite Hc. discriminate.
Qed.

(** *** Queries from two start dates *)

Lemma get_weights_subset (d1 d2 : date) (db : database)
  (dates1 : list date) (ws1 : list Q) :
  valid_date d1 = true -> valid_date d2 = true -> date_leb d1 d2 = true ->
  get_weights (Some d1) db = Ok (dates1, ws1) ->
  exists dates2 ws2,
    get_weights (Some d2) db = Ok (dates2, ws2) /\ incl dates2 dates1.
Proof.
  intros V1 V2 Hle.
  pose proof (fetchall_monotone d1 d2 db V1 V2 Hle) as Hincl.
  unfold get_weights. simpl option_map.
  set (rows1 := fetchall (Some (isoformat d1)) db) in *.
  set (rows2 := fetchall (Some (isoformat d2)) db) in *.
  intros H1.
  destruct (comprehension (fun r => strptime (fst r)) rows1)
    as [ds1|e] eqn:Hc1; simpl in H1; [|discriminate].
  injection H1 as <- <-.
  apply comprehension_Ok in Hc1.
  destruct (comprehension_total (fun r => strptime (fst r)) rows2)
    as [ds2 Hc2].
  { intros r Hr. apply Hincl in Hr.
    destruct (Forall2_In_l _ _ _ Hc1 r Hr) as [d [_ Hd]]. eauto. }
  exists ds2, (map snd rows2). rewrite Hc2. simpl. split; [reflexivity|].
  apply comprehension_Ok in Hc2.
  intros d Hd.
  destruct (Forall2_In_r _ _ _ Hc2 d Hd) as [r [Hr Hp]].
  apply Hincl in Hr.
  destruct (Forall2_In_l _ _ _ Hc1 r Hr) as [d' [Hd' Hp']].
  congruence.
Qed.

Open Scope string_scope.

(** X16. More than a year after the first day of the calendar, the start
    dates of [1y], [6m] and [1m] are in this order and not after today, and
    for any table what [1m] returns is among what [6m] returns, which is
    among what [1y] returns. *)
Theorem windows_are_nested (today : date) (db : database) :
  valid_date today = true -> 365 < toordinal today ->
  exists s1 s6 sy,
    resolve_start_date None "1m" today = Ok (Some s1)
    /\ resolve_start_date None "6m" today = Ok (Some s6)
    /\ resolve_start_date None "1y" today = Ok (Some sy)
    /\ date_leb sy s6 = true /\ date_leb s6 s1 = true
    /\ date_leb s1 today = true
    /\ (forall dy wy, get_weights (Some sy) db = Ok (dy, wy) ->
          exists d6 w6 d1 w1,
            get_weights (Some s6) db = Ok (d6, w6)
            /\ get_weights (Some s1) db = Ok (d1, w1)
            /\ incl d1 d6 /\ incl d6 dy).
Proof.
  intros Hv Ht.
  destruct (date_sub_days_correct today 30 Hv ltac:(lia)) as [s1 [E1 [V1 O1]]].
  destruct (date_sub_days_correct today 180 Hv ltac:(lia)) as [s6 [E6 [V6 O6]]].
  destruct (date_sub_days_correct today 365 Hv ltac:(lia)) as [sy [Ey [Vy Oy]]].
  assert (Ly6 : date_leb sy s6 = true) by (apply date_leb_toordinal; auto; lia).
  assert (L61 : date_leb s6 s1 = true) by (apply date_leb_toordinal; auto; lia).
  exists s1, s6, sy.
  split; [simpl; unfold start_of_range; simpl; now rewrite E1|].
  split; [simpl; unfold start_of_range; simpl; now rewrite E6|].
  split; [simpl; unfold start_of_range; simpl; now rewrite Ey|].
  split; [exact Ly6|]. split; [exact L61|].
  split; [apply date_leb_toordinal; auto; lia|].
  intros dy wy Hy.
  destruct (get_weights_subset sy s6 db dy wy Vy V6 Ly6 Hy) as [d6 [w6 [H6 I6]]].
  destruct (get_weights_subset s6 s1 db d6 w6 V6 V1 L61 H6) as [d1 [w1 [H1 I1]]].
  exists d6, w6, d1, w1. auto.
Qed.

Lemma windows_are_nested_witness :
  exists s1 s6 sy,
    resolve_start_date None "1m" (mkdate 2024 3 31) = Ok (Some s1)
    /\ resolve_start_date None "6m" (mkdate 2024 3 31) = Ok (Some s6)
    /\ resolve_start_date None "1y" (mkdate 2024 3 31) = Ok (Some sy)
    /\ date_leb sy s6 = true /\ date_leb s6 s1 = true
    /\ date_leb s1 (mkdate 2024 3 31) = true
    /\ (forall dy wy, get_weights (Some sy) scenario_db = Ok (dy, wy) ->
          exists d6 w6 d1 w1,
            get_weights (Some s6) scenario_db = Ok (d6, w6)
            /\ get_weights (Some s1) scenario_db = Ok (d1, w1)
            /\ incl d1 d6 /\ incl d6 dy).
Proof.
  apply windows_are_nested; reflexivity.
Defined.

(** *** The [from:] tag *)

Lemma split_colon_aux_nonempty (s : string) :
  forall cur, exists h t, split_colon_aux cur s = h :: t.
Proof.
  induction s as [|c s IH]; intros cur; simpl; [eauto|].
  destruct (c =? ":")%char; eauto.
Qed.

Lemma split_colon_aux_segment (p q : string) :
  forall cur, Forall not_colon (list_ascii_of_string p) ->
    split_colon_aux cur (p ++ String ":" q)
    = (cur ++ p) :: split_colon_aux "" q.
Proof.
  induction p as [|c p IH]; intros cur H; simpl.
  - now rewrite append_empty_r.
  - simpl in H. inversion H as [|? ? Hc Hs]; subst.
    apply Ascii.eqb_neq in Hc. rewrite Hc, IH by assumption.
    now rewrite append_char_assoc.
Qed.

Lemma prefix_from (g : string) :
  prefix "from:" g = true -> exists rest, g = "from:" ++ rest.
Proof.
  intros H.
  destruct g as [|c1 [|c2 [|c3 [|c4 [|c5 rest]]]]]; simpl in H;
    repeat match type of H with
    | (if ?c then _ else _) = true => destruct c; [|discriminate]
    end; try discriminate.
  subst. exists rest. reflexivity.
Qed.

Lemma start_of_range_from_general (rest : string) (today : date) :
  start_of_range ("from:" ++ rest) today
  = d <- strptime (hd "" (split_colon rest)) ;; Ok (Some d).
Proof.
  unfold start_of_range.
  assert (Hpre : prefix "from:" ("from:" ++ rest) = true)
    by (cbn; now destruct rest).
  rewrite Hpre.
  assert (Hs : split_colon ("from:" ++ rest) = "from" :: split_colon rest)
    by reflexivity.
  rewrite Hs. unfold split_colon at 1 2.
  destruct (split_colon_aux_nonempty rest "") as [h [t E]].
  unfold split_colon. rewrite E. reflexivity.
Qed.

(** X17. For a tag [from:...], the date is read from the text between the
    first and the second colon: what follows a second colon is ignored, and
    the result is the date that text parses to, or its [ValueError]. *)
Theorem start_of_range_from_segment (p q : string) (today : date) :
  Forall not_colon (list_ascii_of_string p) ->
  start_of_range ("from:" ++ p) today = d <- strptime p ;; Ok (Some d)
  /\ start_of_range ("from:" ++ p ++ String ":" q) today
     = d <- strptime p ;; Ok (Some d).
Proof.
  intros H. rewrite !start_of_range_from_general. unfold split_colon.
  rewrite split_colon_aux_colon_free, split_colon_aux_segment by assumption.
  split; reflexivity.
Qed.

Lemma start_of_range_from_segment_witness :
  start_of_range "from:2023-01-01" (mkdate 2024 3 31)
  = Ok (Some (mkdate 2023 1 1))
  /\ start_of_range "from:2023-01-01:junk" (mkdate 2024 3 31)
     = Ok (Some (mkdate 2023 1 1)).
Proof.
  apply (start_of_range_from_segment "2023-01-01" "junk").
  repeat constructor; discriminate.
Defined.

(** *** Persisting the default range *)

Lemma get_preference_set_same (key value default : string) (db : database) :
  get_preference key default (set_preference key value db) = value.
Proof.
  unfold get_preference, set_preference. simpl.
  now rewrite select_one_insert_same.
Qed.

(** X18. A [--from-date] given with [--set-default] is the start date of the
    run and of every later run without range arguments, whatever the day of
    that run; the measurements are not touched. *)
Theorem main_range_persists_from_date (s : string) (d today today' : date)
  (db : database) :
  strptime s = Ok d ->
  exists db',
    main_range None (Some s) true today db = Ok (Some d, db')
    /\ weights db' = weights db
    /\ main_range None None false today' db' = Ok (Some d, db').
Proof.
  intros Hp. pose proof (strptime_nonempty s d Hp) as Hne.
  exists (set_preference "default_range" ("from:" ++ s) db).
  split; [|split].
  - unfold main_range, resolve_start_date. rewrite Hne, Hp. reflexivity.
  - reflexivity.
  - unfold main_range, graph_range_of, resolve_start_date.
    rewrite get_preference_set_same, (start_of_range_from s d today' Hp).
    reflexivity.
Qed.

Lemma main_range_persists_from_date_witness :
  exists db',
    main_range None (Some "2022-6-15") true (mkdate 2024 3 31) empty_db
    = Ok (Some (mkdate 2022 6 15), db')
    /\ weights db' = weights empty_db
    /\ main_range None None false (mkdate 2025 1 1) db'
       = Ok (Some (mkdate 2022 6 15), db').
Proof.
  apply main_range_persists_from_date. reflexivity.
Defined.

(** X19. A [--range] given with [--set-default] is stored, and a later run
    without range arguments on the same day resolves to the same start
    date; the measurements are not touched. *)
Theorem main_range_persists_tag (tag : string) (today : date)
  (db db' : database) (start : option date) :
  tag <> "" ->
  main_range (Some tag) None true today db = Ok (start, db') ->
  get_preference "default_range" "all" db' = tag
  /\ weights db' = weights db
  /\ main_range None None false today db' = Ok (start, db').
Proof.
  intros Hne. apply String.eqb_neq in Hne.
  unfold main_range, graph_range_of. rewrite Hne. cbn [negb andb].
  destruct (resolve_start_date None tag today) as [r|e] eqn:E;
    cbn [bind]; [|discriminate].
  intros H. injection H as <- <-.
  rewrite get_preference_set_same. rewrite E. auto.
Qed.

Lemma main_range_persists_tag_witness :
  let db' := set_preference "default_range" "6m" empty_db in
  get_preference "default_range" "all" db' = "6m"
  /\ weights db' = weights empty_db
  /\ main_range None None false (mkdate 2024 3 31) db'
     = Ok (Some (mkdate 2023 10 3), db').
Proof.
  intros db'.
  apply (main_range_persists_tag "6m" (mkdate 2024 3 31) empty_db).
  - discriminate.
  - reflexivity.
Defined.

(** X20. With [--set-default], [--range] and [--from-date] together, the run
    starts from the from date, and the default that stays stored is the
    range tag. *)
Theorem main_range_tag_beats_from_date (tag s : string) (d today : date)
  (db : database) :
  tag <> "" -> strptime s = Ok d ->
  exists db',
    main_range (Some tag) (Some s) true today db = Ok (Some d, db')
    /\ get_preference "default_range" "all" db' = tag.
Proof.
  intros Hne Hp. apply String.eqb_neq in Hne.
  pose proof (strptime_nonempty s d Hp) as Hs.
  eexists. split.
  - unfold main_range, graph_range_of, resolve_start_date.
    rewrite Hne, Hs, Hp. reflexivity.
  - apply get_preference_set_same.
Qed.

Lemma main_range_tag_beats_from_date_witness :
  exists db',
    main_range (Some "1y") (Some "2022-06-15") true (mkdate 2024 3 31)
      empty_db = Ok (Some (mkdate 2022 6 15), db')
    /\ get_preference "default_range" "all" db' = "1y".
Proof.
  apply main_range_tag_beats_from_date; [discriminate|reflexivity].
Defined.

Close Scope string_scope.

(** ** Runs of [main] *)

Lemma main_range_weights (range from_date : option string)
  (set_default : bool) (today : date) (db db' : database)
  (start : option date) :
  main_range range from_date set_default today db = Ok (start, db') ->
  weights db' = weights db.
Proof.
  unfold main_range.
  destruct (resolve_start_date _ _ _) as [r|e]; cbn [bind]; [|discriminate].
  intros H. injection H as _ <-.
  destruct range as [r'|], from_date as [fd|];
    repeat match goal with
    | |- context [if ?c then _ else _] => destruct c
    end; reflexivity.
Qed.

Lemma main_weights (a : args) (prev_weights : list (string * Q))
  (today : date) (db : database) :
  arg_import_history a = false ->
  weights (fst (main a prev_weights today db))
  = weights (after_logging a today db).
Proof.
  intros Hi. unfold main. rewrite Hi. unfold init_db.
  fold (after_logging a today db).
  destruct (main_range _ _ _ today (after_logging a today db))
    as [[start db']|e] eqn:E; [|reflexivity].
  apply main_range_weights in E.
  destruct (arg_graph_only a || weight_given a).
  - destruct (get_weights start db') as [[[|d ds] ws]|e']; simpl; exact E.
  - destruct (negb (arg_set_default a)); simpl; exact E.
Qed.

(** X21. A run of [main] without the import that has no weight, a weight of
    zero, or [--graph-only], leaves the table of weights as it was. *)
Theorem main_logs_nothing (a : args) (prev_weights : list (string * Q))
  (today : date) (db : database) :
  arg_import_history a = false ->
  weight_given a && negb (arg_graph_only a) = false ->
  weights (fst (main a prev_weights today db)) = weights db.
Proof.
  intros Hi Hc. rewrite main_weights by assumption.
  unfold after_logging. rewrite Hc. now destruct (arg_weight a).
Qed.

Lemma main_logs_nothing_witness :
  weights (fst (main (mkargs (Some 0%Q) (Some "2024-01-01"%string) None None
                        false false false) [] (mkdate 2024 3 31) empty_db))
  = weights empty_db.
Proof. apply main_logs_nothing; reflexivity. Defined.

(** X22. A run of [main] without the import keeps a well-formed store
    well-formed when [--date] is absent, empty or a zero-padded ISO date: the
    date it logs under by default is [today.isoformat()]. *)
Theorem main_keeps_store_wf (a : args) (prev_weights : list (string * Q))
  (today : date) (db : database) :
  arg_import_history a = false ->
  store_wf db -> valid_date today = true ->
  match arg_date a with
  | Some d => d = ""%string \/ iso_date_string d = true
  | None => True
  end ->
  store_wf (fst (main a prev_weights today db)).
Proof.
  intros Hi Hwf Hv Hd.
  assert (H : store_wf (after_logging a today db)).
  { unfold after_logging. destruct (arg_weight a) as [w|]; [|exact Hwf].
    destruct (weight_given a && negb (arg_graph_only a)); [|exact Hwf].
    apply log_weight_wf; [|exact Hwf].
    destruct (arg_date a) as [d|]; [|now apply iso_date_string_isoformat].
    destruct Hd as [->|Hd]; [now apply iso_date_string_isoformat|].
    destruct (String.eqb_spec d ""); [subst; discriminate|exact Hd]. }
  unfold store_wf in *. now rewrite main_weights.
Qed.

Lemma main_keeps_store_wf_witness :
  store_wf (fst (main (mkargs (Some 181%Q) None None None false false false)
                   [] (mkdate 2024 3 31) scenario_db)).
Proof.
  apply main_keeps_store_wf.
  - reflexivity.
  - split.
    + unfold primary_key. simpl.
      repeat constructor; simpl; intuition discriminate.
    + repeat constructor.
  - reflexivity.
  - exact I.
Defined.

Open Scope string_scope.

Lemma start_of_range_Raise (g : string) (today : date) (e : exn) :
  start_of_range g today = Raise e -> e = ValueError \/ e = OverflowError.
Proof.
  destruct (prefix "from:" g) eqn:Hp.
  - apply prefix_from in Hp. destruct Hp as [rest ->].
    rewrite start_of_range_from_general.
    destruct (strptime _) as [d|e'] eqn:E; cbn [bind]; [discriminate|].
    intros H. injection H as <-. left. eapply strptime_Raise; eauto.
  - unfold start_of_range. rewrite Hp.
    repeat match goal with
    | |- context [if ?c then _ else _] => destruct c
    end;
    try (destruct (date_sub_days _ _) as [d|e'] eqn:E; cbn [bind];
         [discriminate|]; intros H; injection H as <-; right;
         eapply date_sub_days_Raise; eauto).
    discriminate.
Qed.

Lemma main_range_Raise (range from_date : option string)
  (set_default : bool) (today : date) (db : database) (e : exn) :
  main_range range from_date set_default today db = Raise e ->
  e = ValueError \/ e = OverflowError.
Proof.
  unfold main_range, resolve_start_date.
  destruct from_date as [fd|].
  - destruct (negb (fd =? "")).
    + destruct (strptime fd) as [d|e'] eqn:E; cbn [bind]; [discriminate|].
      intros H. injection H as <-. left. eapply strptime_Raise; eauto.
    + destruct (start_of_range _ _) as [r|e'] eqn:E; cbn [bind];
        [discriminate|].
      intros H. injection H as <-. eapply start_of_range_Raise; eauto.
  - destruct (start_of_range _ _) as [r|e'] eqn:E; cbn [bind];
      [discriminate|].
    intros H. injection H as <-. eapply start_of_range_Raise; eauto.
Qed.

Close Scope string_scope.

Lemma get_weights_Raise (start : option date) (db : database) (e : exn) :
  get_weights start db = Raise e -> e = ValueError.
Proof.
  unfold get_weights.
  destruct (comprehension _ _) as [ds|e'] eqn:E; cbn [bind]; [discriminate|].
  intros H. injection H as <-.
  apply comprehension_Raise in E. destruct E as [r [_ Hr]].
  eapply strptime_Raise; eauto.
Qed.

(** X23. [main] raises only [ValueError] or [OverflowError], never
    [IndexError]: the tag [from:] always has a second field, and the trend is
    computed only on a series that is not empty. *)
Theorem main_raises_only (a : args) (prev_weights : list (string * Q))
  (today : date) (db : database) (e : exn) :
  snd (main a prev_weights today db) = Raise e ->
  e = ValueError \/ e = OverflowError.
Proof.
  unfold main. destruct (arg_import_history a); [discriminate|].
  unfold init_db. fold (after_logging a today db).
  destruct (main_range _ _ _ today (after_logging a today db))
    as [[start db']|e'] eqn:E.
  - destruct (arg_graph_only a || weight_given a).
    + destruct (get_weights start db') as [[dates ws]|e''] eqn:G.
      * destruct dates as [|d dates]; [discriminate|].
        destruct (query_result_can_be_fitted start db'
                    (d :: dates) ws G ltac:(discriminate)) as [t Ht].
        cbn [snd]. rewrite Ht. discriminate.
      * cbn [snd]. intros H. injection H as <-. left.
        eapply get_weights_Raise; eauto.
    + destruct (negb (arg_set_default a)); discriminate.
  - cbn [snd]. intros H. injection H as <-.
    eapply main_range_Raise; eauto.
Qed.

Lemma main_raises_only_witness :
  ValueError = ValueError \/ ValueError = OverflowError.
Proof.
  apply (main_raises_only
           (mkargs None None None (Some "yesterday"%string) false false true)
           [] (mkdate 2024 3 31) empty_db).
  reflexivity.
Defined.

(** ** Writes and ordered queries *)

Section SortedUnique.

Context {V : Type}.

(** A table without duplicate keys has one sorted arrangement. *)
Lemma sorted_perm_unique (l : list (string * V)) :
  forall l', StronglySorted key_le l -> StronglySorted key_le l' ->
             Permutation l l' -> NoDup (map fst l) -> l = l'.
Proof.
  induction l as [|a l IH]; intros l' Hs Hs' Hp Hnd.
  - apply Permutation_nil in Hp. now subst.
  - destruct l' as [|b l'];
      [apply Permutation_sym, Permutation_nil in Hp; discriminate|].
    inversion Hs as [|? ? Hsl Hal]; subst.
    inversion Hs' as [|? ? Hsl' Hbl]; subst.
    assert (Hab : a = b).
    { assert (Ha : In a (b :: l'))
        by (eapply Permutation_in; [exact Hp|now left]).
      assert (Hb : In b (a :: l))
        by (eapply Permutation_in; [symmetry; exact Hp|now left]).
      destruct Ha as [E|Ha]; [now subst|].
      destruct Hb as [E|Hb]; [now subst|].
      rewrite Forall_forall in Hal, Hbl.
      pose proof (Hal _ Hb) as H1. pose proof (Hbl _ Ha) as H2.
      unfold key_le in H1, H2.
      pose proof (String.leb_antisym _ _ H1 H2) as Ek.
      exfalso. simpl in Hnd. inversion Hnd as [|? ? Hnin _]; subst.
      apply Hnin. rewrite Ek. now apply in_map. }
    subst b. f_equal. apply IH; auto.
    + eapply Permutation_cons_inv; eauto.
    + simpl in Hnd. now inversion Hnd.
Qed.

Lemma order_by_key_perm_eq (l l' : list (string * V)) :
  Permutation l l' -> NoDup (map fst l) ->
  order_by_key l = order_by_key l'.
Proof.
  intros Hp Hnd. apply sorted_perm_unique.
  - apply order_by_key_sorted.
  - apply order_by_key_sorted.
  - rewrite <- (order_by_key_perm l), <- (order_by_key_perm l'). exact Hp.
  - now apply order_by_key_NoDup.
Qed.

Lemma filter_sorted (f : string * V -> bool) (l : list (string * V)) :
  StronglySorted key_le l -> StronglySorted key_le (filter f l).
Proof.
  induction 1 as [|a l Hs IH Hall]; simpl; [constructor|].
  destruct (f a); [|exact IH].
  constructor; [exact IH|].
  rewrite Forall_forall in *. intros x Hx. apply Hall.
  now apply filter_In in Hx.
Qed.

Lemma filter_perm (f : string * V -> bool) (l l' : list (string * V)) :
  Permutation l l' -> Permutation (filter f l) (filter f l').
Proof.
  induction 1; simpl.
  - constructor.
  - destruct (f x); [now constructor|assumption].
  - destruct (f x), (f y); try reflexivity. apply perm_swap.
  - etransitivity; eauto.
Qed.

Lemma filter_NoDup_keys (f : string * V -> bool) (l : list (string * V)) :
  NoDup (map fst l) -> NoDup (map fst (filter f l)).
Proof.
  induction l as [|r l IH]; simpl; intros H; [constructor|].
  inversion H as [|? ? Hnin Hnd]; subst.
  destruct (f r); simpl; auto.
  constructor; auto.
  intros Hin. apply Hnin.
  apply in_map_iff in Hin. destruct Hin as [x [Hx Hin]].
  apply filter_In in Hin. apply in_map_iff. exists x. tauto.
Qed.

(** [WHERE] and [ORDER BY] commute. *)
Lemma order_by_key_filter (f : string * V -> bool) (l : list (string * V)) :
  NoDup (map fst l) ->
  order_by_key (filter f l) = filter f (order_by_key l).
Proof.
  intros Hnd. apply sorted_perm_unique.
  - apply order_by_key_sorted.
  - apply filter_sorted, order_by_key_sorted.
  - rewrite <- (order_by_key_perm (filter f l)).
    apply filter_perm, order_by_key_perm.
  - now apply order_by_key_NoDup, filter_NoDup_keys.
Qed.

(** In a sorted list the rows at or above a key are a tail. *)
Lemma sorted_filter_tail (p : string) (l : list (string * V)) :
  StronglySorted key_le l ->
  exists n, filter (fun r => String.leb p (fst r)) l = skipn n l
            /\ (n <= List.length l)%nat.
Proof.
  induction 1 as [|a l Hs [n [IH Hn]] Hall]; simpl.
  - exists 0%nat. auto.
  - destruct (String.leb p (fst a)) eqn:E.
    + exists 0%nat. simpl. split; [|lia]. f_equal.
      apply filter_all. intros x Hx.
      rewrite Forall_forall in Hall. specialize (Hall _ Hx).
      unfold key_le in Hall. eapply string_leb_trans; eauto.
    + exists (S n). simpl. split; [exact IH|lia].
Qed.

End SortedUnique.

Section Upserts.

Context {V : Type}.

Lemma insert_or_replace_twice (k : string) (v1 v2 : V) (t : table V) :
  insert_or_replace k v2 (insert_or_replace k v1 t) = insert_or_replace k v2 t.
Proof.
  unfold insert_or_replace. rewrite filter_app, filter_twice. simpl.
  rewrite String.eqb_refl. simpl. rewrite app_nil_r. f_equal.
  apply filter_ext. intros r. now destruct (fst r =? k)%string.
Qed.

Lemma insert_or_replace_swap (k1 k2 : string) (v1 v2 : V) (t : table V) :
  k1 <> k2 ->
  Permutation (insert_or_replace k1 v1 (insert_or_replace k2 v2 t))
              (insert_or_replace k2 v2 (insert_or_replace k1 v1 t)).
Proof.
  intros Hne. unfold insert_or_replace.
  rewrite !filter_app, !filter_twice. simpl.
  assert (E12 : (k1 =? k2)%string = false) by now apply String.eqb_neq.
  assert (E21 : (k2 =? k1)%string = false)
    by (apply String.eqb_neq; congruence).
  rewrite E12, E21. simpl. rewrite <- !app_assoc. simpl.
  rewrite (filter_ext (fun r => negb (fst r =? k1)%string
                                && negb (fst r =? k2)%string)
                      (fun r => negb (fst r =? k2)%string
                                && negb (fst r =? k1)%string))
    by (intros r; apply andb_comm).
  apply Permutation_app_head, perm_swap.
Qed.

End Upserts.

(** X24. The last write wins on the whole database: logging a date a second
    time gives the database that logging only the second value gives, and
    the same for a preference; the first write leaves no trace. *)
Theorem writes_overwrite (d key : string) (v1 v2 : Q) (s1 s2 : string)
  (db : database) :
  log_weight d v2 (log_weight d v1 db) = log_weight d v2 db
  /\ set_preference key s2 (set_preference key s1 db)
     = set_preference key s2 db.
Proof.
  unfold log_weight, set_preference. simpl.
  now rewrite !insert_or_replace_twice.
Qed.

(** X25. The order in which two different dates are logged does not matter to
    any query. *)
Theorem log_weight_commutes (k1 k2 : string) (w1 w2 : Q)
  (start_date : option date) (db : database) :
  primary_key (weights db) -> k1 <> k2 ->
  get_weights start_date (log_weight k1 w1 (log_weight k2 w2 db))
  = get_weights start_date (log_weight k2 w2 (log_weight k1 w1 db)).
Proof.
  intros Hpk Hne. unfold get_weights.
  assert (Hf : fetchall (option_map isoformat start_date)
                 (log_weight k1 w1 (log_weight k2 w2 db))
               = fetchall (option_map isoformat start_date)
                   (log_weight k2 w2 (log_weight k1 w1 db))).
  { pose proof (insert_or_replace_swap k1 k2 w1 w2 (weights db) Hne) as Hp.
    assert (Hnd : NoDup (map fst (insert_or_replace k1 w1
                                    (insert_or_replace k2 w2 (weights db)))))
      by (now repeat apply insert_or_replace_primary_key).
    destruct start_date as [s|]; simpl.
    - apply order_by_key_perm_eq.
      + now apply filter_perm.
      + now apply where_key_ge_NoDup.
    - now apply order_by_key_perm_eq. }
  now rewrite Hf.
Qed.

Lemma log_weight_commutes_witness :
  get_weights None
    (log_weight "2024-01-08" 178 (log_weight "2024-01-01" 180 empty_db))
  = get_weights None
      (log_weight "2024-01-01" 180 (log_weight "2024-01-08" 178 empty_db)).
Proof.
  apply log_weight_commutes; [constructor|discriminate].
Defined.

(** X26. Logging under a text that is below the text of the start date does
    not change what the query from that start date returns or raises. *)
Theorem log_weight_before_start (d : string) (w : Q) (start : date)
  (db : database) :
  String.leb (isoformat start) d = false ->
  get_weights (Some start) (log_weight d w db) = get_weights (Some start) db.
Proof.
  intros Hd. unfold get_weights, fetchall, where_key_ge, log_weight,
    insert_or_replace. simpl.
  rewrite filter_app, filter_twice. simpl. rewrite Hd, app_nil_r.
  rewrite (filter_ext_in
             (fun r => negb (fst r =? d)%string
                       && String.leb (isoformat start) (fst r))
             (fun r => String.leb (isoformat start) (fst r))); [reflexivity|].
  intros r _. destruct (String.eqb_spec (fst r) d) as [->|]; simpl;
    [now rewrite Hd|reflexivity].
Qed.

Lemma log_weight_before_start_witness :
  get_weights (Some (mkdate 2024 1 5))
    (log_weight "2023-12-25" 185 scenario_db)
  = get_weights (Some (mkdate 2024 1 5)) scenario_db.
Proof. apply log_weight_before_start. reflexivity. Defined.

Lemma comprehension_skipn {A B : Type} (f : A -> result B) (n : nat) :
  forall l bs, comprehension f l = Ok bs ->
               comprehension f (skipn n l) = Ok (skipn n bs).
Proof.
  induction n as [|n IH]; intros l bs H; [exact H|].
  destruct l as [|a l]; simpl in H.
  - injection H as <-. reflexivity.
  - destruct (f a) as [b|e]; simpl in H; [|discriminate].
    destruct (comprehension f l) as [bs'|e] eqn:E; simpl in H; [|discriminate].
    injection H as <-. simpl. now apply IH.
Qed.

(** X27. When the query without a start date returns, the query from any
    start date returns a tail of it: the same dates and weights with the
    first [n] dropped. *)
Theorem get_weights_from_start_is_tail (start : date) (db : database)
  (dates : list date) (ws : list Q) :
  primary_key (weights db) ->
  get_weights None db = Ok (dates, ws) ->
  exists n, get_weights (Some start) db = Ok (skipn n dates, skipn n ws).
Proof.
  intros Hpk. unfold get_weights, fetchall, where_key_ge. simpl.
  rewrite order_by_key_filter by exact Hpk.
  destruct (sorted_filter_tail (isoformat start) (order_by_key (weights db))
              (order_by_key_sorted _)) as [n [-> _]].
  destruct (comprehension _ (order_by_key (weights db))) as [ds|e] eqn:E;
    simpl; [|discriminate].
  intros H. injection H as <- <-. exists n.
  rewrite (comprehension_skipn _ n _ _ E). simpl.
  now rewrite skipn_map.
Qed.

Lemma get_weights_from_start_is_tail_witness :
  exists n, get_weights (Some (mkdate 2024 1 5)) scenario_db
            = Ok (skipn n scenario_dates, skipn n scenario_weights).
Proof.
  apply get_weights_from_start_is_tail.
  - unfold primary_key. simpl.
    repeat constructor; simpl; intuition discriminate.
  - reflexivity.
Defined.

(** ** The trend: shifted data *)

Open Scope Q_scope.

Lemma dot_proper (U U' V V' : list Q) :
  Forall2 Qeq U U' -> Forall2 Qeq V V' -> dot U V == dot U' V'.
Proof.
  intros HU. revert V V'.
  induction HU as [|u u' U U' Hu _ IH]; intros V V' HV.
  - reflexivity.
  - destruct HV as [|v v' V V' Hv HV]; [reflexivity|].
    rewrite !dot_cons, Hu, Hv, (IH V V' HV). reflexivity.
Qed.

Lemma lstsq_proper (U U' V V' : list Q) :
  Forall2 Qeq U U' -> Forall2 Qeq V V' -> lstsq U V == lstsq U' V'.
Proof.
  intros HU HV. unfold lstsq.
  pose proof (dot_proper U U' U U' HU HU) as Huu.
  pose proof (dot_proper U U' V V' HU HV) as Huv.
  destruct (Qeq_bool (dot U U) 0) eqn:E, (Qeq_bool (dot U' U') 0) eqn:E'.
  - reflexivity.
  - apply Qeq_bool_iff in E. apply Qeq_bool_neq in E'.
    exfalso. apply E'. now rewrite <- Huu.
  - apply Qeq_bool_iff in E'. apply Qeq_bool_neq in E.
    exfalso. apply E. now rewrite Huu.
  - apply Qeq_bool_neq in E, E'. rewrite Huv, Huu. reflexivity.
Qed.

Lemma centred_shift (k mx mx' : Q) (X X' : list Q) :
  mx' == mx + k -> Forall2 (on_line 1 k) X X' ->
  Forall2 Qeq (map (fun x => x - mx) X) (map (fun x => x - mx') X').
Proof.
  intros Hm. induction 1 as [|x x' X X' Hx _ IH]; cbn [map]; constructor.
  - unfold on_line in Hx. rewrite Hx, Hm. ring.
  - exact IH.
Qed.

Lemma shift_hd_last (c : Q) (ws ws' : list Q) :
  Forall2 (on_line 1 c) ws ws' ->
  hd 0 ws' - hd 0 ws == last ws' 0 - last ws 0.
Proof.
  induction 1 as [|w w' ws ws' Hw Hf IH]; [reflexivity|].
  destruct Hf as [|v v' ws ws' Hv Hf].
  - simpl. ring.
  - change (last (w :: v :: ws) 0) with (last (v :: ws) 0).
    change (last (w' :: v' :: ws') 0) with (last (v' :: ws') 0).
    rewrite <- IH. unfold on_line in Hw, Hv. cbn [hd]. rewrite Hw, Hv. ring.
Qed.

Lemma last_cons_default (w : Q) (ws : list Q) :
  last (w :: ws) 0 = last ws w.
Proof.
  destruct ws as [|v ws]; [reflexivity|].
  change (last (w :: v :: ws) 0) with (last (v :: ws) 0).
  apply last_nonempty.
Qed.

Lemma fit_shift (k c : Q) (X X' Y Y' : list Q) (m : LinearRegression) :
  Forall2 (on_line 1 k) X X' -> Forall2 (on_line 1 c) Y Y' ->
  fit X Y = Ok m ->
  exists m', fit X' Y' = Ok m' /\ coef_ m' == coef_ m
             /\ intercept_ m' == intercept_ m + c - k * coef_ m.
Proof.
  intros HX HY Hfit. apply fit_Ok in Hfit.
  destruct Hfit as [Hne [Hlen [Hc Hi]]].
  pose proof (Forall2_length HX) as LX. pose proof (Forall2_length HY) as LY.
  assert (HmX : mean X' == mean X + k).
  { rewrite (mean_on_line 1 k X X' Hne HX). ring. }
  assert (HY0 : Y <> []) by (destruct X, Y; simpl in *; congruence).
  assert (HmY : mean Y' == mean Y + c).
  { rewrite (mean_on_line 1 c Y Y' HY0 HY). ring. }
  assert (Hcoef : lstsq (map (fun x => x - mean X') X')
                        (map (fun v => v - mean Y') Y') == coef_ m).
  { rewrite Hc. symmetry. apply lstsq_proper.
    - now apply (centred_shift k).
    - now apply (centred_shift c). }
  unfold fit. rewrite <- LX, <- LY, Hlen, Nat.eqb_refl.
  replace (List.length Y =? 0)%nat with false
    by (destruct Y; [congruence|reflexivity]).
  cbn [negb]. eexists. split; [reflexivity|]. cbn [coef_ intercept_].
  split; [exact Hcoef|]. rewrite Hcoef, HmX, HmY, Hi. ring.
Qed.

(** X28. The trend does not depend on the origin of the calendar nor on a
    constant added to the weights: with all dates moved by [k] days and all
    weights raised by [c], the slope and the total change are the same and
    every fitted value is raised by [c]. *)
Theorem trend_shift_invariant (k : Z) (c : Q) (dates dates' : list date)
  (ws ws' : list Q) (t : trend) :
  Forall2 (fun d d' => toordinal d' = (toordinal d + k)%Z) dates dates' ->
  Forall2 (fun w w' => w' == w + c) ws ws' ->
  generate_graph dates ws = Ok t ->
  exists t', generate_graph dates' ws' = Ok t'
             /\ slope t' == slope t
             /\ Forall2 (fun f f' => f' == f + c)
                  (trend_line t) (trend_line t')
             /\ total_change t' == total_change t.
Proof.
  intros Hd Hw Hg.
  set (X := map (fun d => inject_Z (toordinal d)) dates).
  set (X' := map (fun d => inject_Z (toordinal d)) dates').
  assert (HX : Forall2 (on_line 1 (inject_Z k)) X X').
  { unfold X, X'. clear -Hd. induction Hd as [|d d' ds ds' E _ IH];
      cbn [map]; constructor; [|exact IH].
    unfold on_line. rewrite E, inject_Z_plus. ring. }
  assert (HY : Forall2 (on_line 1 c) ws ws').
  { clear -Hw. induction Hw as [|w w' ws ws' E _ IH]; constructor;
      [|exact IH]. unfold on_line. rewrite E. ring. }
  unfold generate_graph in Hg. fold X in Hg.
  destruct (fit X ws) as [m|e] eqn:Hfit; cbn [bind] in Hg; [|discriminate].
  destruct (last_item ws) as [wl|e] eqn:Hl; cbn [bind] in Hg; [|discriminate].
  destruct (first_item ws) as [wf|e] eqn:Hf; cbn [bind] in Hg;
    [|discriminate].
  injection Hg as <-.
  destruct (fit_shift (inject_Z k) c X X' ws ws' m HX HY Hfit)
    as [m' [Hfit' [Hc Hi]]].
  unfold generate_graph. fold X'. rewrite Hfit'. cbn [bind].
  pose proof (shift_hd_last c ws ws' HY) as Hhl.
  destruct HY as [|w w' ws ws' Hw0 HY]; [discriminate|].
  cbn [last_item first_item bind]. eexists. split; [reflexivity|].
  cbn [slope trend_line total_change]. split; [exact Hc|]. split.
  - unfold predict. clear -HX Hc Hi.
    induction HX as [|x x' X X' Hx _ IH]; cbn [map]; constructor;
      [|exact IH].
    unfold on_line in Hx. rewrite Hx, Hc, Hi. ring.
  - simpl in Hl, Hf. injection Hl as <-. injection Hf as <-.
    cbn [hd] in Hhl. rewrite !last_cons_default in Hhl.
    lra.
Qed.

Lemma trend_shift_invariant_witness :
  exists t t',
    generate_graph scenario_dates scenario_weights = Ok t
    /\ generate_graph [mkdate 2025 1 1; mkdate 2025 1 8; mkdate 2025 1 15]
         [80; 78; 76] = Ok t'
    /\ slope t' == slope t.
Proof.
  assert (H : exists t,
             generate_graph scenario_dates scenario_weights = Ok t)
    by (eexists; reflexivity).
  destruct H as [t Ht].
  destruct (trend_shift_invariant 366 (-100) scenario_dates
              [mkdate 2025 1 1; mkdate 2025 1 8; mkdate 2025 1 15]
              scenario_weights [80; 78; 76] t) as [t' [H1 [H2 _]]].
  - repeat constructor.
  - repeat constructor; vm_compute; reflexivity.
  - exact Ht.
  - exists t, t'. auto.
Defined.

Close Scope Q_scope.
